(** * DS7505: a shallow embedding of the Arduino driver for the DS7505
      digital thermometer and thermostat (DS7505.h, DS7505.cpp).

    Data model.

    - [byte] and [uint8_t] values are integers in [0, 256); a store into a
      [uint8_t] is written [to_uint8] (reduction modulo 256).
    - [float] values are modelled by the rational number they denote.  The
      driver only compares them with constants, takes their absolute value,
      truncates them to an integer and subtracts dyadic constants from a
      fractional part in [0, 1): on finite binary floating-point inputs every
      one of these operations is exact, so the rational computation is the
      floating-point one.  The values a [float] holds besides numbers, NaN
      and the two infinities, are the type [cfloat]; [setThermostat_fp] is
      [setThermostat] on every [cfloat] and coincides with the rational
      function on numbers.
    - The object fields [_i2cAddr] and [_configByte] form the record
      [DS7505.t].
    - The [Wire] object (the two-wire bus library, not part of the driver) is
      modelled by the chronological trace of the calls made to it, together
      with its receive buffer and the bytes the addressed slave will answer
      with.
    - Member functions are computations in a state monad over driver and
      bus; the result [None] stands for a call that never returns (the
      busy-wait loops of [getTemp]). *)

From Stdlib Require Import ZArith QArith Qround Qabs List Bool Lia Lqa.
Import ListNotations.

Local Open Scope Z_scope.

(** ** Machine integers *)

Definition to_uint8 (z : Z) : Z := z mod 256.

Definition is_byte (z : Z) : Prop := 0 <= z < 256.

(** C's truth value of a comparison, an [int]. *)
Definition c_bool (b : bool) : Z := if b then 1 else 0.

(** Conversion of a floating-point value to an integer type: truncation
    toward zero. *)
Definition Ztrunc (q : Q) : Z := Z.quot (Qnum q) (Zpos (Qden q)).

Definition Qltb (a b : Q) : bool := negb (Qle_bool b a).

(** Arduino's [abs] macro, [((x)>0?(x):-(x))]. *)
Definition abs (x : Q) : Q := if Qltb 0 x then x else Qopp x.

(** [fabs] of math.h. *)
Definition fabs (x : Q) : Q := Qabs x.

(** ** Floating-point values that are not numbers *)

(** A C [float]: a number, an infinity or NaN. *)
Inductive cfloat : Type :=
| Finite (q : Q)
| Infinity (negative : bool)
| NaN.

(** [a < b]: false whenever an operand is NaN. *)
Definition f_lt (a b : cfloat) : bool :=
  match a, b with
  | NaN, _ => false
  | _, NaN => false
  | Finite x, Finite y => Qltb x y
  | Finite _, Infinity neg => negb neg
  | Infinity neg, Finite _ => neg
  | Infinity n1, Infinity n2 => n1 && negb n2
  end.

(** [a >= b]: false whenever an operand is NaN. *)
Definition f_ge (a b : cfloat) : bool :=
  match a, b with
  | NaN, _ => false
  | _, NaN => false
  | Finite x, Finite y => Qle_bool y x
  | Finite _, Infinity neg => neg
  | Infinity neg, Finite _ => negb neg
  | Infinity n1, Infinity n2 => negb n1 || n2
  end.

Definition f_neg (a : cfloat) : cfloat :=
  match a with
  | Finite x => Finite (Qopp x)
  | Infinity neg => Infinity (negb neg)
  | NaN => NaN
  end.

Definition f_sub (a b : cfloat) : cfloat :=
  match a, b with
  | NaN, _ => NaN
  | _, NaN => NaN
  | Finite x, Finite y => Finite (x - y)
  | Infinity neg, Finite _ => Infinity neg
  | Finite _, Infinity neg => Infinity (negb neg)
  | Infinity n1, Infinity n2 => if Bool.eqb n1 n2 then NaN else Infinity n1
  end.

(** Arduino's [abs] macro, [((x)>0?(x):-(x))], on every value. *)
Definition f_abs (x : cfloat) : cfloat :=
  if f_lt (Finite 0) x then x else f_neg x.

(** [fabs] of math.h on every value. *)
Definition f_fabs (x : cfloat) : cfloat :=
  match x with
  | Finite q => Finite (Qabs q)
  | Infinity _ => Infinity false
  | NaN => NaN
  end.

(** Conversion to an integer type.  C leaves the conversion of an infinity or
    of NaN undefined; [undef] gives the integer the target produces for
    each such value, and nothing is assumed about it. *)
Definition f_to_int (undef : cfloat -> Z) (x : cfloat) : Z :=
  match x with
  | Finite q => Ztrunc q
  | _ => undef x
  end.

(** Conversion of an [int] to floating point. *)
Definition f_of_int (z : Z) : cfloat := Finite (inject_Z z).

(** ** The bus library *)

Module Wire.

Inductive event : Type :=
| BeginTransmission (addr : Z)
| Send (b : Z)
| EndTransmission
| RequestFrom (addr : Z) (quantity : nat)
| Receive (b : Z).

Record t : Type := mk {
  trace : list event;   (* calls made so far, oldest first *)
  rx : list Z;          (* receive buffer *)
  slave : list Z        (* bytes the slave delivers on the next reads *)
}.

Definition log (e : event) (w : t) : t :=
  mk (trace w ++ [e]) (rx w) (slave w).

Definition beginTransmission (addr : Z) (w : t) : t :=
  log (BeginTransmission addr) w.

Definition send (b : Z) (w : t) : t := log (Send b) w.

Definition endTransmission (w : t) : t := log EndTransmission w.

Definition requestFrom (addr : Z) (quantity : nat) (w : t) : t :=
  mk (trace w ++ [RequestFrom addr quantity])
     (firstn quantity (slave w))
     (skipn quantity (slave w)).

Definition available (w : t) : bool :=
  match rx w with [] => false | _ :: _ => true end.

(** [receive] on an empty buffer yields 0, as the library does. *)
Definition receive (w : t) : Z * t :=
  match rx w with
  | [] => (0, log (Receive 0) w)
  | b :: bs => (b, mk (trace w ++ [Receive b]) bs (slave w))
  end.

(** The write transactions of a trace: each bracket
    [beginTransmission a; send b1; ...; send bn; endTransmission] is one
    transaction [(a, [b1; ...; bn])]. *)
Fixpoint transactions_from (cur : option (Z * list Z)) (es : list event)
  : list (Z * list Z) :=
  match es with
  | [] => []
  | BeginTransmission a :: es' => transactions_from (Some (a, [])) es'
  | Send b :: es' =>
      match cur with
      | Some (a, bs) => transactions_from (Some (a, bs ++ [b])) es'
      | None => transactions_from None es'
      end
  | EndTransmission :: es' =>
      match cur with
      | Some tx => tx :: transactions_from None es'
      | None => transactions_from None es'
      end
  | _ :: es' => transactions_from cur es'
  end.

Definition transactions (es : list event) : list (Z * list Z) :=
  transactions_from None es.

End Wire.

(** ** The driver *)

Module DS7505.

(** *** Enumerations of DS7505.h *)

Inductive Resolution : Type := RES_09 | RES_10 | RES_11 | RES_12.

Definition Resolution_val (r : Resolution) : Z :=
  match r with
  | RES_09 => 0x0 | RES_10 => 0x1 | RES_11 => 0x2 | RES_12 => 0x3
  end.

Inductive FaultTolerance : Type := FT_1 | FT_2 | FT_4 | FT_6.

Definition FaultTolerance_val (f : FaultTolerance) : Z :=
  match f with
  | FT_1 => 0x0 | FT_2 => 0x1 | FT_4 => 0x2 | FT_6 => 0x3
  end.

Inductive Register : Type := P_TEMP | P_CONF | P_THYST | P_TOS.

Definition Register_val (r : Register) : Z :=
  match r with
  | P_TEMP => 0x0 | P_CONF => 0x1 | P_THYST => 0x2 | P_TOS => 0x3
  end.

Inductive Command : Type := CMD_RECALL_DATA | CMD_COPY_DATA | CMD_POR.

Definition Command_val (c : Command) : Z :=
  match c with
  | CMD_RECALL_DATA => 0xB8 | CMD_COPY_DATA => 0x48 | CMD_POR => 0x54
  end.

(** *** Object state *)

Record t : Type := mk {
  _i2cAddr : Z;
  _configByte : Z
}.

Record state : Type := mkState {
  dev : t;
  wire : Wire.t
}.

(** *** State monad with divergence *)

Definition M (A : Type) : Type := state -> option (A * state).

Definition ret {A} (a : A) : M A := fun s => Some (a, s).

Definition bind {A B} (m : M A) (k : A -> M B) : M B :=
  fun s => match m s with
           | Some (a, s') => k a s'
           | None => None
           end.

Definition diverge {A} : M A := fun _ => None.

Declare Scope ds_scope.
Delimit Scope ds_scope with ds.
Notation "x <- m ;; k" := (bind m (fun x => k))
  (at level 61, m at next level, right associativity) : ds_scope.
Notation "m ;; k" := (bind m (fun _ => k))
  (at level 61, right associativity) : ds_scope.
Local Open Scope ds_scope.

Definition get_i2cAddr : M Z := fun s => Some (_i2cAddr (dev s), s).
Definition get_configByte : M Z := fun s => Some (_configByte (dev s), s).
Definition set_i2cAddr (a : Z) : M unit :=
  fun s => Some (tt, mkState (mk a (_configByte (dev s))) (wire s)).
Definition set_configByte (c : Z) : M unit :=
  fun s => Some (tt, mkState (mk (_i2cAddr (dev s)) c) (wire s)).

Definition on_wire (f : Wire.t -> Wire.t) : M unit :=
  fun s => Some (tt, mkState (dev s) (f (wire s))).

Definition Wire_beginTransmission (a : Z) : M unit :=
  on_wire (Wire.beginTransmission a).
Definition Wire_send (b : Z) : M unit := on_wire (Wire.send b).
Definition Wire_endTransmission : M unit := on_wire Wire.endTransmission.
Definition Wire_requestFrom (a : Z) (n : nat) : M unit :=
  on_wire (Wire.requestFrom a n).
Definition Wire_receive : M Z :=
  fun s => let (b, w) := Wire.receive (wire s) in Some (b, mkState (dev s) w).

(** [while (!Wire.available()) { }]: the body is empty, so the loop exits at
    once when a byte is buffered and never otherwise. *)
Definition wait_available : M unit :=
  fun s => if Wire.available (wire s) then Some (tt, s) else None.

(** *** setConfigRegister (DS7505.cpp, 27-33)

    The body sends the member [_configByte]; the parameter [configByte] is
    not read. *)
Definition setConfigRegister (configByte : Z) : M unit :=
  a <- get_i2cAddr ;;
  Wire_beginTransmission a ;;
  Wire_send (Register_val P_CONF) ;;
  c <- get_configByte ;;
  Wire_send c ;;
  Wire_endTransmission.

(** *** init (DS7505.cpp, 8-16) *)
Definition init (a2 a1 a0 : Z) (res : Resolution) : M unit :=
  set_configByte (to_uint8 (Z.shiftl (Resolution_val res) 5)) ;;
  set_i2cAddr
    (to_uint8
       (Z.lor (Z.lor (Z.lor 0x48 (Z.shiftl (Z.land a2 0x1) 2))
                     (Z.shiftl (Z.land a1 0x1) 1))
              (Z.land a0 0x1))) ;;
  c <- get_configByte ;;
  setConfigRegister c.

(** *** sendCommand (DS7505.cpp, 39-44) *)
Definition sendCommand (cmdSet : Z) : M unit :=
  a <- get_i2cAddr ;;
  Wire_beginTransmission a ;;
  Wire_send cmdSet ;;
  Wire_endTransmission.

(** *** getTemp (DS7505.cpp, 47-77) *)

(** Lines 66-76, on the two bytes received.  In C, [==] binds tighter than
    [&]: the test [h & 0x80 == 0x80] is [h & (0x80 == 0x80)], nonzero
    exactly when bit 0 of [h] is set.  The sign [s] is assigned and never
    read; the sum is evaluated left to right. *)
Definition decode (h l : Z) : Q :=
  let '(s, h) :=
    if negb (Z.land h (c_bool (0x80 =? 0x80)) =? 0)
    then ((-1)%Q, Z.land h 0x7f)
    else (1%Q, h) in
  let temp :=
    (0.5 * inject_Z (Z.shiftr (Z.land l 0x80) 7)
     + 0.25 * inject_Z (Z.shiftr (Z.land l 0x40) 6)
     + 0.125 * inject_Z (Z.shiftr (Z.land l 0x20) 5)
     + 0.0625 * inject_Z (Z.shiftr (Z.land l 0x10) 4)
     + inject_Z h)%Q in
  temp.

Definition getTemp (regPdef : Register) : M Q :=
  a <- get_i2cAddr ;;
  Wire_beginTransmission a ;;
  Wire_send (Register_val regPdef) ;;
  Wire_endTransmission ;;
  Wire_requestFrom a 2 ;;
  wait_available ;;
  h <- Wire_receive ;;
  wait_available ;;
  l <- Wire_receive ;;
  Wire_endTransmission ;;
  ret (decode h l).

(** *** setThermostat (DS7505.cpp, 84-166)

    The definitions of this part take the setpoints as numbers;
    [setThermostat_fp] below is the same code on every floating-point
    value. *)

(** Lines 102-119 (and, for [thyst], 130-147): the four tests on the
    fractional remainder.  The last test sets its bit without
    subtracting. *)
Definition encode_low_bits (r : Q) : Z :=
  let l := 0 in
  let '(l, r) := if Qle_bool 0.5 r then (Z.lor l 0x80, (r - 0.5)%Q) else (l, r) in
  let '(l, r) := if Qle_bool 0.25 r then (Z.lor l 0x40, (r - 0.25)%Q) else (l, r) in
  let '(l, r) := if Qle_bool 0.125 r then (Z.lor l 0x20, (r - 0.125)%Q) else (l, r) in
  let l := if Qle_bool 0.0625 r then Z.lor l 0x10 else l in
  l.

(** Lines 93-119 for [tos]; lines 121-147 repeat them verbatim for [thyst].
    The result is the pair (high byte, low byte).  The lines are reached
    only behind the guard of line 86, for values of [-55, 125]. *)
Definition encode (v : Q) : Z * Z :=
  let v_h :=
    if Qle_bool 0 v
    then to_uint8 (Ztrunc v)
    else Z.land 0x80 (to_uint8 (Ztrunc (abs v))) in
  let vr := (fabs v - inject_Z (Ztrunc (abs v)))%Q in
  (v_h, encode_low_bits vr).

(** The guard of line 86. *)
Definition rejected (tos thyst : Q) : bool :=
  Qltb tos thyst || Qltb tos (-55) || Qltb thyst (-55)
  || Qltb 125 tos || Qltb 125 thyst.

Definition setThermostat (tos thyst : Q) (ft : FaultTolerance) : M unit :=
  if rejected tos thyst then ret tt
  else
    let '(tos_h, tos_l) := encode tos in
    let '(thyst_h, thyst_l) := encode thyst in
    a <- get_i2cAddr ;;
    Wire_beginTransmission a ;;
    Wire_send (Register_val P_TOS) ;;
    Wire_send tos_h ;;
    Wire_send tos_l ;;
    Wire_endTransmission ;;
    a <- get_i2cAddr ;;
    Wire_beginTransmission a ;;
    Wire_send (Register_val P_THYST) ;;
    Wire_send thyst_h ;;
    Wire_send thyst_l ;;
    Wire_endTransmission ;;
    c <- get_configByte ;;
    set_configByte (Z.land c 0xE7) ;;
    c <- get_configByte ;;
    set_configByte (to_uint8 (Z.lor c (Z.shiftl (FaultTolerance_val ft) 3))) ;;
    c <- get_configByte ;;
    setConfigRegister c.

(** *** Inline wrappers of DS7505.h *)
Definition getTempC (regPdef : Register) : M Q := getTemp regPdef.
Definition setThermostatC (tos thyst : Q) (ft : FaultTolerance) : M unit :=
  setThermostat tos thyst ft.

(** [float getTempC()] (DS7505.h, 88). *)
Definition getTempC_0 : M Q := getTemp P_TEMP.

(** [void setThermostatC(float tos, float thyst)] (DS7505.h, 130). *)
Definition setThermostatC_2 (tos thyst : Q) : M unit :=
  setThermostatC tos thyst FT_1.

(** *** setThermostat on every floating-point value (DS7505.cpp, 84-166) *)

(** The guard of line 86. *)
Definition rejected_fp (tos thyst : cfloat) : bool :=
  f_lt tos thyst || f_lt tos (Finite (-55)) || f_lt thyst (Finite (-55))
  || f_lt (Finite 125) tos || f_lt (Finite 125) thyst.

(** Lines 102-119 and 130-147. *)
Definition encode_low_bits_fp (r : cfloat) : Z :=
  let l := 0 in
  let '(l, r) :=
    if f_ge r (Finite 0.5) then (Z.lor l 0x80, f_sub r (Finite 0.5))
    else (l, r) in
  let '(l, r) :=
    if f_ge r (Finite 0.25) then (Z.lor l 0x40, f_sub r (Finite 0.25))
    else (l, r) in
  let '(l, r) :=
    if f_ge r (Finite 0.125) then (Z.lor l 0x20, f_sub r (Finite 0.125))
    else (l, r) in
  let l := if f_ge r (Finite 0.0625) then Z.lor l 0x10 else l in
  l.

(** Lines 93-119 and 121-147. *)
Definition encode_fp (undef : cfloat -> Z) (v : cfloat) : Z * Z :=
  let v_h :=
    if f_ge v (Finite 0)
    then to_uint8 (f_to_int undef v)
    else Z.land 0x80 (to_uint8 (f_to_int undef (f_abs v))) in
  let vr := f_sub (f_fabs v) (f_of_int (f_to_int undef (f_abs v))) in
  (v_h, encode_low_bits_fp vr).

Definition setThermostat_fp (undef : cfloat -> Z) (tos thyst : cfloat)
    (ft : FaultTolerance) : M unit :=
  if rejected_fp tos thyst then ret tt
  else
    let '(tos_h, tos_l) := encode_fp undef tos in
    let '(thyst_h, thyst_l) := encode_fp undef thyst in
    a <- get_i2cAddr ;;
    Wire_beginTransmission a ;;
    Wire_send (Register_val P_TOS) ;;
    Wire_send tos_h ;;
    Wire_send tos_l ;;
    Wire_endTransmission ;;
    a <- get_i2cAddr ;;
    Wire_beginTransmission a ;;
    Wire_send (Register_val P_THYST) ;;
    Wire_send thyst_h ;;
    Wire_send thyst_l ;;
    Wire_endTransmission ;;
    c <- get_configByte ;;
    set_configByte (Z.land c 0xE7) ;;
    c <- get_configByte ;;
    set_configByte (to_uint8 (Z.lor c (Z.shiftl (FaultTolerance_val ft) 3))) ;;
    c <- get_configByte ;;
    setConfigRegister c.

(** [void setThermostatC(float tos, float thyst, FaultTolerance ft)]
    (DS7505.h, 145), the public entry to [setThermostat]. *)
Definition setThermostatC_fp (undef : cfloat -> Z) (tos thyst : cfloat)
    (ft : FaultTolerance) : M unit :=
  setThermostat_fp undef tos thyst ft.

(** Events a call adds to the bus trace. *)
Definition issued {A} (m : M A) (s : state) : option (list Wire.event) :=
  match m s with
  | Some (_, s') =>
      Some (skipn (length (Wire.trace (wire s))) (Wire.trace (wire s')))
  | None => None
  end.

End DS7505.

Import DS7505.

(** ** Definitions used in the statements *)

(** Exhaustive check over the 256 byte values. *)
Definition all_bytes : list Z := map Z.of_nat (seq 0 256).

(** The four fractional bits of the low byte, as [decode] weighs them. *)
Definition fraction (l : Z) : Q :=
  (0.5 * inject_Z (Z.shiftr (Z.land l 0x80) 7)
   + 0.25 * inject_Z (Z.shiftr (Z.land l 0x40) 6)
   + 0.125 * inject_Z (Z.shiftr (Z.land l 0x20) 5)
   + 0.0625 * inject_Z (Z.shiftr (Z.land l 0x10) 4))%Q.

(** The integer part [decode] adds: bit 7 is cleared when bit 0 is set. *)
Definition integer_part (h : Z) : Z :=
  if Z.land h 1 =? 0 then h else Z.land h 0x7f.

(** The decode as the specification words it, for comparison with [decode]:
    the sign is bit 7 of the high byte and multiplies the sum of integer and
    fractional part. *)
Definition decode_spec (h l : Z) : Q :=
  let sign := if Z.testbit h 7 then (-1)%Q else 1%Q in
  let int_part := if Z.testbit h 7 then Z.land h 0x7F else h in
  (sign * (inject_Z int_part + fraction l))%Q.

(** The state after a call that leaves the receive side alone, storing [d] in
    the object and adding the events [es] to the trace. *)
Definition after (s : state) (d : DS7505.t) (es : list Wire.event) : state :=
  mkState d
    (Wire.mk (Wire.trace (wire s) ++ es) (Wire.rx (wire s))
       (Wire.slave (wire s))).

(** The address expression of line 13, before the store into [_i2cAddr]. *)
Definition init_addr (a2 a1 a0 : Z) : Z :=
  Z.lor (Z.lor (Z.lor 0x48 (Z.shiftl (Z.land a2 0x1) 2))
               (Z.shiftl (Z.land a1 0x1) 1))
        (Z.land a0 0x1).

(** The precondition in the positive form the specification gives it. *)
Definition accepted (tos thyst : Q) : Prop :=
  (thyst <= tos /\ -55 <= tos <= 125 /\ -55 <= thyst <= 125)%Q.

(** The high byte as the specification words it, for comparison with the
    high byte of [encode]: for a negative value, bit 7 is OR-ed with the
    floored absolute integer part. *)
Definition encode_high_spec (v : Q) : Z :=
  if Qltb v 0 then Z.lor 0x80 (Qfloor (Qabs v)) else Qfloor v.

(** The low byte as the specification words it, for comparison with
    [encode_low_bits]: the weights in descending order, each with its bit,
    and the greedy decomposition of a remainder against them. *)
Definition weights : list (Q * Z) :=
  [(0.5%Q, 0x80); (0.25%Q, 0x40); (0.125%Q, 0x20); (0.0625%Q, 0x10)].

Fixpoint greedy (ws : list (Q * Z)) (r : Q) (bits : Z) : Z :=
  match ws with
  | [] => bits
  | (w, bit) :: ws' =>
      if Qle_bool w r then greedy ws' (r - w)%Q (Z.lor bits bit)
      else greedy ws' r bits
  end.

(** The read-modify-write of lines 162-163 on a byte. *)
Definition update_ft (c : Z) (ft : FaultTolerance) : Z :=
  Z.lor (Z.land c 0xE7) (Z.shiftl (FaultTolerance_val ft) 3).

(** A call a client makes on an initialised driver object. *)
Inductive call : Type :=
| Call_setConfigRegister (configByte : Z)
| Call_sendCommand (cmdSet : Z)
| Call_getTemp (regPdef : Register)
| Call_setThermostat (tos thyst : Q) (ft : FaultTolerance).

Definition do_call (c : call) : M unit :=
  match c with
  | Call_setConfigRegister b => setConfigRegister b
  | Call_sendCommand b => sendCommand b
  | Call_getTemp r => bind (getTemp r) (fun _ => ret tt)
  | Call_setThermostat tos thyst ft => setThermostat tos thyst ft
  end.

(** A client program: calls made one after the other. *)
Fixpoint do_calls (cs : list call) : M unit :=
  match cs with
  | [] => ret tt
  | c :: cs' => bind (do_call c) (fun _ => do_calls cs')
  end.

(** The events that name a bus address name the address [a]. *)
Definition addressed_to (a : Z) (e : Wire.event) : bool :=
  match e with
  | Wire.BeginTransmission a' => a' =? a
  | Wire.RequestFrom a' _ => a' =? a
  | _ => true
  end.

(** The relation between the states before and after calls that keep the
    device identity: same address, same cached bits outside the
    fault-tolerance field, cached byte still a byte, and only events naming
    the object's address added to the trace. *)
Definition keeps_identity (s s' : state) : Prop :=
  _i2cAddr (dev s') = _i2cAddr (dev s)
  /\ Z.land (_configByte (dev s')) 0xE7 = Z.land (_configByte (dev s)) 0xE7
  /\ is_byte (_configByte (dev s'))
  /\ exists es,
       Wire.trace (wire s') = Wire.trace (wire s) ++ es
       /\ forallb (addressed_to (_i2cAddr (dev s))) es = true.

(** The values for which no comparison of the guard holds, taken one at a
    time: NaN, and the numbers of [-55, 125]. *)
Definition in_range_or_NaN (x : cfloat) : Prop :=
  match x with
  | Finite q => (-55 <= q <= 125)%Q
  | Infinity _ => False
  | NaN => True
  end.

(** The pairs of setpoints for which no comparison of the guard holds. *)
Definition passes_guard (tos thyst : cfloat) : Prop :=
  in_range_or_NaN tos /\ in_range_or_NaN thyst
  /\ match tos, thyst with
     | Finite a, Finite b => (b <= a)%Q
     | _, _ => True
     end.


(** ** Auxiliary facts *)

Lemma all_bytes_complete (b : Z) : is_byte b -> In b all_bytes.
Proof.
  intros Hb. unfold all_bytes.
  replace b with (Z.of_nat (Z.to_nat b)) by (unfold is_byte in Hb; lia).
  apply in_map, in_seq. unfold is_byte in Hb. lia.
Qed.

Lemma forall_bytes (P : Z -> bool) :
  forallb P all_bytes = true -> forall b, is_byte b -> P b = true.
Proof.
  intros H b Hb. rewrite forallb_forall in H. apply H.
  now apply all_bytes_complete.
Qed.

Ltac by_bytes b Hb :=
  revert b Hb;
  match goal with
  | |- forall b, is_byte b -> ?f b = true => apply (forall_bytes f)
  | |- forall b, is_byte b -> @?f b = true => apply (forall_bytes f)
  end;
  vm_compute; reflexivity.

Lemma Qltb_lt (a b : Q) : Qltb a b = true <-> (a < b)%Q.
Proof.
  unfold Qltb. rewrite negb_true_iff. split; intro H.
  - apply Qnot_le_lt. intro Hle. apply Qle_bool_iff in Hle. congruence.
  - destruct (Qle_bool b a) eqn:E; [|reflexivity].
    apply Qle_bool_iff in E. exfalso. exact (Qlt_not_le _ _ H E).
Qed.

Lemma Qltb_ge (a b : Q) : Qltb a b = false <-> (b <= a)%Q.
Proof.
  unfold Qltb. rewrite negb_false_iff. apply Qle_bool_iff.
Qed.

Lemma Qle_bool_false (a b : Q) : Qle_bool a b = false <-> (b < a)%Q.
Proof.
  rewrite <- Qltb_lt. unfold Qltb. now rewrite negb_true_iff.
Qed.

(** Truncation of a non-negative value is its floor. *)
Lemma Ztrunc_floor (q : Q) : (0 <= q)%Q -> Ztrunc q = Qfloor q.
Proof.
  destruct q as [n d]. unfold Qle, Ztrunc, Qfloor. simpl. intros H.
  apply Z.quot_div_nonneg; lia.
Qed.

Lemma Qfloor_unique (q : Q) (n : Z) :
  (inject_Z n <= q)%Q -> (q < inject_Z (n + 1))%Q -> Qfloor q = n.
Proof.
  intros Hlo Hhi.
  pose proof (Qfloor_le q) as H1. pose proof (Qlt_floor q) as H2.
  assert (Hn : (inject_Z n < inject_Z (Qfloor q + 1))%Q)
    by (eapply Qle_lt_trans; eassumption).
  assert (Hf : (inject_Z (Qfloor q) < inject_Z (n + 1))%Q)
    by (eapply Qle_lt_trans; eassumption).
  rewrite <- Zlt_Qlt in Hn, Hf. lia.
Qed.

(** ** The temperature decode *)

Lemma decode_parts (h l : Z) :
  decode h l = (fraction l + inject_Z (integer_part h))%Q.
Proof.
  unfold decode, fraction, integer_part, c_bool. simpl (0x80 =? 0x80).
  destruct (Z.land h 1 =? 0); reflexivity.
Qed.

Lemma integer_part_byte (h : Z) : is_byte h -> is_byte (integer_part h).
Proof.
  intros Hh. unfold integer_part, is_byte in *.
  destruct (Z.land h 1 =? 0); [assumption|].
  change 0x7f with (Z.ones 7). rewrite Z.land_ones by lia.
  pose proof (Z.mod_pos_bound h (2 ^ 7)). lia.
Qed.

(** The fraction is a number of sixteenths given by the high nibble. *)
Lemma fraction_sixteenths (l : Z) :
  is_byte l -> (fraction l == inject_Z (l / 16) / 16)%Q.
Proof.
  intros Hl.
  assert (H : Qeq_bool (fraction l) (inject_Z (l / 16) / 16) = true)
    by by_bytes l Hl.
  now apply Qeq_bool_iff.
Qed.

Lemma fraction_range (l : Z) : is_byte l -> (0 <= fraction l < 1)%Q.
Proof.
  intros Hl. rewrite (fraction_sixteenths l Hl).
  assert (H : 0 <= l / 16 < 16).
  { unfold is_byte in Hl. split.
    - apply Z.div_pos; lia.
    - apply Z.div_lt_upper_bound; lia. }
  destruct H as [H0 H1].
  rewrite Zle_Qle in H0. rewrite Zlt_Qlt in H1.
  set (n := inject_Z (l / 16)) in *. change (inject_Z 0) with 0%Q in H0.
  change (inject_Z 16) with 16%Q in H1.
  split.
  - apply Qle_shift_div_l; lra.
  - apply Qlt_shift_div_r; lra.
Qed.

(** What [getTemp] returns when the slave answers with two bytes. *)
Lemma getTemp_returns (regPdef : Register) (s : state) (h l : Z) (rest : list Z) :
  Wire.slave (wire s) = h :: l :: rest ->
  exists s', getTemp regPdef s = Some (decode h l, s')
             /\ dev s' = dev s.
Proof.
  intros Hs. destruct s as [d [tr rx sl]]. simpl in Hs. subst sl.
  eexists. split.
  - unfold getTemp, bind, get_i2cAddr, Wire_beginTransmission, Wire_send,
      Wire_endTransmission, Wire_requestFrom, Wire_receive, wait_available,
      on_wire, ret. simpl. reflexivity.
  - reflexivity.
Qed.

(** With fewer than two bytes delivered the second busy-wait never ends. *)
Lemma getTemp_blocks (regPdef : Register) (s : state) (h : Z) :
  Wire.slave (wire s) = [h] -> getTemp regPdef s = None.
Proof.
  intros Hs. destruct s as [d [tr rx sl]]. simpl in Hs. subst sl. reflexivity.
Qed.

(** C1.  The decode of [getTemp] does not take the sign from bit 7 of the high
    byte and does not multiply by it: on the bytes (0x8A, 0x00), where the
    described decode gives -10, [getTemp] returns 138.  The test of line 66
    looks at bit 0, and the sign computed there is never used. *)
Theorem C1_decode_ignores_sign_bit :
  (decode 0x8A 0x00 == 138)%Q
  /\ (decode_spec 0x8A 0x00 == -10)%Q
  /\ ~ (decode 0x8A 0x00 == decode_spec 0x8A 0x00)%Q
  /\ (exists s', getTemp P_TEMP
                   (mkState (mk 0x48 0x60) (Wire.mk [] [] [0x8A; 0x00]))
                 = Some (decode 0x8A 0x00, s')).
Proof.
  split; [reflexivity|]. split; [reflexivity|]. split.
  - intro H. vm_compute in H. discriminate H.
  - eexists. reflexivity.
Qed.

(** C8.  The decode maps (0x20, 0x00) to 32.0, (0x20, 0x80) to 32.5 and
    (0x00, 0x00) to 0.0. *)
Theorem C8_decode_examples :
  (decode 0x20 0x00 == 32.0)%Q
  /\ (decode 0x20 0x80 == 32.5)%Q
  /\ (decode 0x00 0x00 == 0.0)%Q.
Proof.
  repeat split; reflexivity.
Qed.

Lemma decode_nonneg (h l : Z) : is_byte h -> is_byte l -> (0 <= decode h l)%Q.
Proof.
  intros Hh Hl. rewrite decode_parts.
  pose proof (fraction_range l Hl) as [Hf _].
  pose proof (integer_part_byte h Hh) as [Hi _].
  rewrite Zle_Qle in Hi. change (inject_Z 0) with 0%Q in Hi. lra.
Qed.

(** C10.  Whatever two bytes the sensor delivers, also with bit 7 of the high
    byte set, [getTemp] returns and the temperature it returns is not
    negative. *)
Theorem C10_getTemp_nonnegative
    (regPdef : Register) (s : state) (h l : Z) (rest : list Z) :
  is_byte h -> is_byte l ->
  Wire.slave (wire s) = h :: l :: rest ->
  exists temp s',
    getTemp regPdef s = Some (temp, s')
    /\ temp = decode h l
    /\ (0 <= temp)%Q.
Proof.
  intros Hh Hl Hs.
  destruct (getTemp_returns regPdef s h l rest Hs) as [s' [Hrun _]].
  exists (decode h l), s'. split; [exact Hrun|]. split; [reflexivity|].
  now apply decode_nonneg.
Qed.

Lemma C10_getTemp_nonnegative_witness :
  is_byte 0x8A /\ is_byte 0x80
  /\ exists temp s',
       getTemp P_TOS (mkState (mk 0x48 0x60) (Wire.mk [] [] [0x8A; 0x80]))
       = Some (temp, s')
       /\ temp = decode 0x8A 0x80
       /\ (0 <= temp)%Q.
Proof.
  assert (H1 : is_byte 0x8A) by (unfold is_byte; lia).
  assert (H2 : is_byte 0x80) by (unfold is_byte; lia).
  split; [exact H1|]. split; [exact H2|].
  apply (C10_getTemp_nonnegative P_TOS
           (mkState (mk 0x48 0x60) (Wire.mk [] [] [0x8A; 0x80]))
           0x8A 0x80 [] H1 H2).
  reflexivity.
Defined.

(** ** Bus traffic of the register writes *)

Lemma skipn_length_app {A} (l l' : list A) : skipn (length l) (l ++ l') = l'.
Proof. induction l as [|x l IH]; simpl; [reflexivity | exact IH]. Qed.

Lemma skipn_length_self {A} (l : list A) : skipn (length l) l = [].
Proof. induction l as [|x l IH]; simpl; [reflexivity | exact IH]. Qed.

Lemma issued_after {A} (m : M A) (s : state) (a : A) (d : DS7505.t)
    (es : list Wire.event) :
  m s = Some (a, after s d es) -> issued m s = Some es.
Proof.
  intros H. unfold issued. rewrite H. unfold after. simpl.
  now rewrite skipn_length_app.
Qed.

(** Runs the monadic code of a member function on a state given by its
    constructors; arithmetic is left untouched. *)
Ltac run_driver :=
  cbv beta iota zeta delta
    [init setThermostat setThermostat_fp setThermostatC_fp setConfigRegister
     sendCommand bind ret
     get_i2cAddr get_configByte set_i2cAddr set_configByte
     Wire_beginTransmission Wire_send Wire_endTransmission on_wire
     Wire.beginTransmission Wire.send Wire.endTransmission Wire.log after
     dev wire _i2cAddr _configByte Wire.trace Wire.rx Wire.slave fst snd];
  rewrite <- ?app_assoc; cbn [app].

(** [setConfigRegister] writes the cached byte, whatever its argument. *)
Lemma setConfigRegister_run (configByte : Z) (s : state) :
  setConfigRegister configByte s
  = Some (tt, after s (dev s)
                [Wire.BeginTransmission (_i2cAddr (dev s));
                 Wire.Send (Register_val P_CONF);
                 Wire.Send (_configByte (dev s));
                 Wire.EndTransmission]).
Proof.
  destruct s as [[a c] [tr rx sl]]. run_driver. reflexivity.
Qed.

(** C3.  [setConfigRegister] is not a passthrough of its argument: called
    with 0x00 on a driver whose cached configuration byte is 0x60, its one
    transaction carries CONFIG (0x1) followed by 0x60, not by 0x00. *)
Theorem C3_setConfigRegister_sends_cached_byte :
  let s := mkState (mk 0x48 0x60) (Wire.mk [] [] []) in
  issued (setConfigRegister 0x00) s
  = Some [Wire.BeginTransmission 0x48; Wire.Send 0x1; Wire.Send 0x60;
          Wire.EndTransmission]
  /\ option_map Wire.transactions (issued (setConfigRegister 0x00) s)
     = Some [(0x48, [0x1; 0x60])]
  /\ option_map Wire.transactions (issued (setConfigRegister 0x00) s)
     <> Some [(0x48, [0x1; 0x00])].
Proof.
  cbv zeta. split; [reflexivity|]. split; [reflexivity|].
  intro H. vm_compute in H. discriminate H.
Qed.

(** ** init *)

Lemma init_run (a2 a1 a0 : Z) (res : Resolution) (s : state) :
  init a2 a1 a0 res s
  = let d := mk (to_uint8 (init_addr a2 a1 a0))
                (to_uint8 (Z.shiftl (Resolution_val res) 5)) in
    Some (tt, after s d
                [Wire.BeginTransmission (_i2cAddr d);
                 Wire.Send (Register_val P_CONF);
                 Wire.Send (_configByte d);
                 Wire.EndTransmission]).
Proof.
  destruct s as [[a c] [tr rx sl]]. run_driver. reflexivity.
Qed.

Lemma land_1_cases (a : Z) : Z.land a 1 = 0 \/ Z.land a 1 = 1.
Proof.
  replace (Z.land a 1) with (a mod 2).
  - pose proof (Z.mod_pos_bound a 2). lia.
  - symmetry. exact (Z.land_ones a 1 ltac:(lia)).
Qed.

Lemma init_addr_range (a2 a1 a0 : Z) : 0x48 <= init_addr a2 a1 a0 <= 0x4F.
Proof.
  unfold init_addr.
  destruct (land_1_cases a2) as [-> | ->],
           (land_1_cases a1) as [-> | ->],
           (land_1_cases a0) as [-> | ->]; vm_compute; split; discriminate.
Qed.

(** C7.  [init] stores the address 0x48 | (a2&1)<<2 | (a1&1)<<1 | (a0&1) and
    the configuration byte res<<5, whose bits outside the resolution field
    are zero; (0,0,0) gives address 0x48 and (1,1,1) gives 0x4F. *)
Theorem C7_init_address_and_config
    (a2 a1 a0 : Z) (res : Resolution) (s : state) :
  (exists s',
      init a2 a1 a0 res s = Some (tt, s')
      /\ _i2cAddr (dev s')
         = Z.lor (Z.lor (Z.lor 0x48 (Z.shiftl (Z.land a2 1) 2))
                        (Z.shiftl (Z.land a1 1) 1))
                 (Z.land a0 1)
      /\ _configByte (dev s') = Z.shiftl (Resolution_val res) 5
      /\ Z.land (_configByte (dev s')) 0x9F = 0)
  /\ (exists s', init 0 0 0 RES_12 s = Some (tt, s')
                 /\ _i2cAddr (dev s') = 0x48)
  /\ (exists s', init 1 1 1 RES_12 s = Some (tt, s')
                 /\ _i2cAddr (dev s') = 0x4F).
Proof.
  split; [|split].
  - eexists. split; [apply init_run|]. cbv zeta. unfold after. simpl.
    split; [|split].
    + change (to_uint8 (init_addr a2 a1 a0) = init_addr a2 a1 a0).
      pose proof (init_addr_range a2 a1 a0). apply Z.mod_small. lia.
    + destruct res; reflexivity.
    + destruct res; reflexivity.
  - eexists. split; [apply init_run|]. reflexivity.
  - eexists. split; [apply init_run|]. reflexivity.
Qed.

(** ** setThermostat: the guard *)

Lemma rejected_true_iff (tos thyst : Q) :
  rejected tos thyst = true
  <-> (tos < thyst \/ tos < -55 \/ thyst < -55 \/ 125 < tos \/ 125 < thyst)%Q.
Proof.
  unfold rejected. rewrite !orb_true_iff, !Qltb_lt. tauto.
Qed.

Lemma rejected_false_iff (tos thyst : Q) :
  rejected tos thyst = false <-> accepted tos thyst.
Proof.
  unfold rejected, accepted. rewrite !orb_false_iff, !Qltb_ge. tauto.
Qed.

(** On numbers the guard does what it is written for: a call with
    tos < thyst, or with tos or thyst outside [-55, 125], returns without any
    call to the bus and with the object unchanged; so does
    setThermostat(10.0, 20.0, FT_1). *)
Lemma setThermostat_rejects_numbers
    (tos thyst : Q) (ft : FaultTolerance) (s : state) :
  (tos < thyst \/ tos < -55 \/ 125 < tos \/ thyst < -55 \/ 125 < thyst)%Q ->
  setThermostat tos thyst ft s = Some (tt, s)
  /\ issued (setThermostat tos thyst ft) s = Some []
  /\ (forall s0, setThermostat 10.0 20.0 FT_1 s0 = Some (tt, s0)
                 /\ issued (setThermostat 10.0 20.0 FT_1) s0 = Some []).
Proof.
  intros H.
  assert (Hrej : rejected tos thyst = true) by (apply rejected_true_iff; tauto).
  assert (Hrun : setThermostat tos thyst ft s = Some (tt, s))
    by (unfold setThermostat; rewrite Hrej; reflexivity).
  split; [exact Hrun|]. split.
  - unfold issued. rewrite Hrun. now rewrite skipn_length_self.
  - intros s0.
    assert (Hrun0 : setThermostat 10.0 20.0 FT_1 s0 = Some (tt, s0))
      by reflexivity.
    split; [exact Hrun0|].
    unfold issued. rewrite Hrun0. now rewrite skipn_length_self.
Qed.

(** ** The temperature encode *)

Lemma abs_Qabs (v : Q) : (abs v == Qabs v)%Q.
Proof.
  unfold abs. destruct (Qltb 0 v) eqn:E.
  - apply Qltb_lt in E. symmetry. apply Qabs_pos. lra.
  - apply Qltb_ge in E. symmetry. apply Qabs_neg. exact E.
Qed.

Lemma abs_ge_0 (v : Q) : (0 <= abs v)%Q.
Proof. rewrite abs_Qabs. apply Qabs_nonneg. Qed.

(** [(int) abs(v)] is the floor of the absolute value. *)
Lemma Ztrunc_abs (v : Q) : Ztrunc (abs v) = Qfloor (Qabs v).
Proof.
  rewrite Ztrunc_floor by apply abs_ge_0. now rewrite abs_Qabs.
Qed.

(** Where [abs] is the integer function of stdlib.h rather than Arduino's
    macro, its argument is truncated first; the value is the same. *)
Lemma Ztrunc_abs_int (v : Q) : Z.abs (Ztrunc v) = Ztrunc (abs v).
Proof.
  unfold abs. destruct (Qltb 0 v) eqn:E.
  - apply Qltb_lt in E. destruct v as [n d]. unfold Qlt in E. simpl in E.
    unfold Ztrunc. simpl. apply Z.abs_eq. apply Z.quot_pos; lia.
  - apply Qltb_ge in E. destruct v as [n d]. unfold Qle in E. simpl in E.
    unfold Ztrunc. simpl. rewrite Z.quot_opp_l by discriminate.
    apply Z.abs_neq.
    pose proof (Z.quot_le_mono n 0 (Zpos d) ltac:(lia) ltac:(lia)) as H.
    rewrite Z.quot_0_l in H by discriminate. exact H.
Qed.

Lemma Qfloor_bounds (q : Q) (lo hi : Z) :
  (inject_Z lo <= q)%Q -> (q <= inject_Z hi)%Q -> lo <= Qfloor q <= hi.
Proof.
  intros Hlo Hhi.
  pose proof (Qfloor_le q) as H1. pose proof (Qlt_floor q) as H2.
  assert (Ha : (inject_Z lo < inject_Z (Qfloor q + 1))%Q)
    by (eapply Qle_lt_trans; eassumption).
  assert (Hb : (inject_Z (Qfloor q) <= inject_Z hi)%Q)
    by (eapply Qle_trans; eassumption).
  rewrite <- Zlt_Qlt in Ha. rewrite <- Zle_Qle in Hb. lia.
Qed.

(** The four tests compute the number of whole sixteenths in the remainder,
    placed in the high nibble. *)
Lemma encode_low_bits_floor (r : Q) :
  (0 <= r < 1)%Q -> encode_low_bits r = 16 * Qfloor (16 * r).
Proof.
  intros [H0 H1]. unfold encode_low_bits.
  destruct (Qle_bool 0.5 r) eqn:E1; cbv beta iota zeta;
    [apply Qle_bool_iff in E1 | apply Qle_bool_false in E1];
    (destruct (Qle_bool 0.25 _) eqn:E2; cbv beta iota zeta;
     [apply Qle_bool_iff in E2 | apply Qle_bool_false in E2]);
    (destruct (Qle_bool 0.125 _) eqn:E3; cbv beta iota zeta;
     [apply Qle_bool_iff in E3 | apply Qle_bool_false in E3]);
    (destruct (Qle_bool 0.0625 _) eqn:E4; cbv beta iota zeta;
     [apply Qle_bool_iff in E4 | apply Qle_bool_false in E4]);
    match goal with
    | |- ?k = _ =>
        let n := eval vm_compute in (k / 16) in
        rewrite (Qfloor_unique (16 * r) n);
        [ reflexivity
        | unfold inject_Z; lra
        | unfold inject_Z; simpl; lra ]
    end.
Qed.

Lemma land_0x80_check (b : Z) :
  is_byte b -> (if b <? 128 then Z.land 0x80 b =? 0 else true) = true.
Proof. intros Hb. by_bytes b Hb. Qed.

Lemma land_0x80_small (b : Z) : 0 <= b < 128 -> Z.land 0x80 b = 0.
Proof.
  intros Hb.
  assert (H := land_0x80_check b ltac:(unfold is_byte; lia)).
  destruct (Z.ltb_spec b 128); [|lia]. now apply Z.eqb_eq.
Qed.

(** For every negative value the guard admits, line 97 (and 125) yields a
    zero high byte: the mask 0x80 is applied with [&] to a magnitude below
    128. *)
Lemma encode_high_negative (v : Q) :
  (-55 <= v < 0)%Q -> fst (encode v) = 0.
Proof.
  intros [Hlo Hhi]. unfold encode. simpl fst.
  assert (E : Qle_bool 0 v = false) by now apply Qle_bool_false.
  rewrite E, Ztrunc_abs.
  assert (Habs : (Qabs v == - v)%Q) by (apply Qabs_neg; lra).
  assert (Hb : 0 <= Qfloor (Qabs v) <= 55).
  { apply Qfloor_bounds; rewrite Habs; unfold inject_Z; lra. }
  unfold to_uint8. rewrite Z.mod_small by lia.
  apply land_0x80_small. lia.
Qed.

(** C2.  For a negative value the encode does not OR the magnitude onto the
    sign bit: line 97 combines 0x80 and the magnitude with [&].  For -10.0
    the high byte sent is 0x00, where the described encode gives 0x8A. *)
Theorem C2_encode_negative_high_byte :
  fst (encode (-10.0)) = 0x00
  /\ encode_high_spec (-10.0) = 0x8A
  /\ issued (setThermostat (-10.0) (-20.0) FT_1)
       (mkState (mk 0x48 0x60) (Wire.mk [] [] []))
     = Some [Wire.BeginTransmission 0x48; Wire.Send 0x3; Wire.Send 0x00;
             Wire.Send 0x00; Wire.EndTransmission;
             Wire.BeginTransmission 0x48; Wire.Send 0x2; Wire.Send 0x00;
             Wire.Send 0x00; Wire.EndTransmission;
             Wire.BeginTransmission 0x48; Wire.Send 0x1; Wire.Send 0x60;
             Wire.EndTransmission].
Proof.
  repeat split; reflexivity.
Qed.

Lemma encode_low_bits_greedy (r : Q) : encode_low_bits r = greedy weights r 0.
Proof.
  unfold encode_low_bits, weights, greedy.
  destruct (Qle_bool 0.5 r); cbv beta iota zeta;
    (destruct (Qle_bool 0.25 _); cbv beta iota zeta);
    (destruct (Qle_bool 0.125 _); cbv beta iota zeta);
    destruct (Qle_bool 0.0625 _); reflexivity.
Qed.

(** C9.  The low byte of the encode is the greedy decomposition of
    |value| - floor(|value|) against 0.5, 0.25, 0.125, 0.0625 in descending
    order; 32.45 encodes to high byte 0x20 and low byte 0x70, and so does
    the single-precision number nearest to 32.45. *)
Theorem C9_encode_low_byte_greedy (v : Q) :
  snd (encode v) = greedy weights (Qabs v - inject_Z (Qfloor (Qabs v)))%Q 0
  /\ encode 32.45 = (0x20, 0x70)
  /\ encode (8506573 # 262144) = (0x20, 0x70).
Proof.
  split; [|split; reflexivity].
  unfold encode, fabs. simpl snd.
  rewrite Ztrunc_abs. apply encode_low_bits_greedy.
Qed.

(** ** Decode, encode, decode *)






(** ** setThermostat: an accepted call *)

Lemma setThermostat_run (tos thyst : Q) (ft : FaultTolerance) (s : state) :
  accepted tos thyst ->
  setThermostat tos thyst ft s
  = let a := _i2cAddr (dev s) in
    let c := to_uint8 (Z.lor (Z.land (_configByte (dev s)) 0xE7)
                             (Z.shiftl (FaultTolerance_val ft) 3)) in
    Some (tt, after s (mk a c)
                [Wire.BeginTransmission a; Wire.Send (Register_val P_TOS);
                 Wire.Send (fst (encode tos)); Wire.Send (snd (encode tos));
                 Wire.EndTransmission;
                 Wire.BeginTransmission a; Wire.Send (Register_val P_THYST);
                 Wire.Send (fst (encode thyst)); Wire.Send (snd (encode thyst));
                 Wire.EndTransmission;
                 Wire.BeginTransmission a; Wire.Send (Register_val P_CONF);
                 Wire.Send c; Wire.EndTransmission]).
Proof.
  intros Hacc. apply rejected_false_iff in Hacc.
  unfold setThermostat. rewrite Hacc.
  destruct (encode tos) as [tos_h tos_l], (encode thyst) as [thyst_h thyst_l].
  destruct s as [[a c] [tr rx sl]]. run_driver. reflexivity.
Qed.

Lemma update_ft_check (ft : FaultTolerance) (c : Z) :
  is_byte c ->
  ((to_uint8 (update_ft c ft) =? update_ft c ft)
   && (Z.land (update_ft c ft) 0xE7 =? Z.land c 0xE7)
   && (Z.land (Z.shiftr (update_ft c ft) 3) 0x3 =? FaultTolerance_val ft)
   && (update_ft c ft <? 256) && (0 <=? update_ft c ft))%bool = true.
Proof. intros Hc. destruct ft; by_bytes c Hc. Qed.

Lemma update_ft_facts (ft : FaultTolerance) (c : Z) :
  is_byte c ->
  to_uint8 (update_ft c ft) = update_ft c ft
  /\ Z.land (update_ft c ft) 0xE7 = Z.land c 0xE7
  /\ Z.land (Z.shiftr (update_ft c ft) 3) 0x3 = FaultTolerance_val ft
  /\ is_byte (update_ft c ft).
Proof.
  intros Hc. pose proof (update_ft_check ft c Hc) as H.
  rewrite !andb_true_iff in H. destruct H as [[[[H1 H2] H3] H4] H5].
  apply Z.eqb_eq in H1, H2, H3. apply Z.ltb_lt in H4. apply Z.leb_le in H5.
  unfold is_byte. tauto.
Qed.

Lemma testbit_0xE7 (i : Z) :
  0 <= i < 8 -> i <> 3 -> i <> 4 -> Z.testbit 0xE7 i = true.
Proof.
  intros Hi H3 H4.
  assert (Hc : i = 0 \/ i = 1 \/ i = 2 \/ i = 5 \/ i = 6 \/ i = 7) by lia.
  destruct Hc as [-> | [-> | [-> | [-> | [-> | ->]]]]]; reflexivity.
Qed.

Lemma testbit_byte_high (b i : Z) : is_byte b -> 8 <= i -> Z.testbit b i = false.
Proof.
  intros Hb Hi. rewrite <- (Z.mod_small b (2 ^ 8)) by exact Hb.
  apply Z.mod_pow2_bits_high. lia.
Qed.

(** Every bit other than F1 and F0 survives the update. *)
Lemma update_ft_other_bits (ft : FaultTolerance) (c i : Z) :
  is_byte c -> i <> 3 -> i <> 4 ->
  Z.testbit (update_ft c ft) i = Z.testbit c i.
Proof.
  intros Hc H3 H4.
  destruct (update_ft_facts ft c Hc) as (_ & Hframe & _ & Hbyte).
  destruct (Z.lt_ge_cases i 0) as [Hneg | Hnn].
  - now rewrite !Z.testbit_neg_r.
  - destruct (Z.lt_ge_cases i 8) as [Hlo | Hhi].
    + assert (Hm : Z.testbit 0xE7 i = true) by (apply testbit_0xE7; lia).
      assert (Hb : Z.testbit (Z.land (update_ft c ft) 0xE7) i
                   = Z.testbit (Z.land c 0xE7) i) by now rewrite Hframe.
      rewrite !Z.land_spec, Hm, !andb_true_r in Hb. exact Hb.
    + now rewrite !testbit_byte_high.
Qed.

(** C6.  An accepted call writes the trip register, then the hysteresis
    register, then stores (cached & 0xE7) | ft<<3 as the cached configuration
    byte and writes the configuration register with it.  Every bit of the
    cached byte other than bits 4 and 3 keeps its value, the resolution bits
    among them, and bits 4-3 hold ft. *)
Theorem C6_setThermostat_accepted
    (tos thyst : Q) (ft : FaultTolerance) (s : state) :
  accepted tos thyst ->
  is_byte (_configByte (dev s)) ->
  let a := _i2cAddr (dev s) in
  let c := _configByte (dev s) in
  let c' := Z.lor (Z.land c 0xE7) (Z.shiftl (FaultTolerance_val ft) 3) in
  setThermostat tos thyst ft s
  = Some (tt, after s (mk a c')
                [Wire.BeginTransmission a; Wire.Send (Register_val P_TOS);
                 Wire.Send (fst (encode tos)); Wire.Send (snd (encode tos));
                 Wire.EndTransmission;
                 Wire.BeginTransmission a; Wire.Send (Register_val P_THYST);
                 Wire.Send (fst (encode thyst)); Wire.Send (snd (encode thyst));
                 Wire.EndTransmission;
                 Wire.BeginTransmission a; Wire.Send (Register_val P_CONF);
                 Wire.Send c'; Wire.EndTransmission])
  /\ option_map Wire.transactions (issued (setThermostat tos thyst ft) s)
     = Some [(a, [Register_val P_TOS; fst (encode tos); snd (encode tos)]);
             (a, [Register_val P_THYST; fst (encode thyst);
                  snd (encode thyst)]);
             (a, [Register_val P_CONF; c'])]
  /\ (forall i, i <> 3 -> i <> 4 -> Z.testbit c' i = Z.testbit c i)
  /\ Z.land c' 0x60 = Z.land c 0x60
  /\ Z.land (Z.shiftr c' 3) 0x3 = FaultTolerance_val ft.
Proof.
  intros Hacc Hc a c c'.
  destruct (update_ft_facts ft c Hc) as (Hu8 & Hframe & Hft & Hbyte).
  fold (update_ft c ft) in c'.
  assert (Hrun := setThermostat_run tos thyst ft s Hacc).
  cbv zeta in Hrun. fold c a in Hrun. fold (update_ft c ft) in Hrun.
  rewrite Hu8 in Hrun. fold c' in Hrun.
  split; [exact Hrun|]. split; [|split; [|split]].
  - rewrite (issued_after _ _ _ _ _ Hrun). reflexivity.
  - intros i H3 H4. now apply update_ft_other_bits.
  - apply Z.bits_inj'. intros i Hi. rewrite !Z.land_spec.
    destruct (Z.eq_dec i 3) as [-> | N3];
      [change (Z.testbit 0x60 3) with false; now rewrite !andb_false_r|].
    destruct (Z.eq_dec i 4) as [-> | N4];
      [change (Z.testbit 0x60 4) with false; now rewrite !andb_false_r|].
    unfold c'. now rewrite update_ft_other_bits.
  - exact Hft.
Qed.

Lemma C6_setThermostat_accepted_witness :
  let s := mkState (mk 0x48 0x60) (Wire.mk [] [] []) in
  accepted 32.45 30.14
  /\ is_byte (_configByte (dev s))
  /\ setThermostat 32.45 30.14 FT_6 s
     = Some (tt, mkState (mk 0x48 0x78)
                   (Wire.mk
                      [Wire.BeginTransmission 0x48; Wire.Send 0x3;
                       Wire.Send 0x20; Wire.Send 0x70; Wire.EndTransmission;
                       Wire.BeginTransmission 0x48; Wire.Send 0x2;
                       Wire.Send 0x1E; Wire.Send 0x20; Wire.EndTransmission;
                       Wire.BeginTransmission 0x48; Wire.Send 0x1;
                       Wire.Send 0x78; Wire.EndTransmission] [] [])).
Proof.
  cbv zeta.
  assert (Hacc : accepted 32.45 30.14)
    by (unfold accepted; repeat split; discriminate).
  assert (Hc : is_byte
                 (_configByte (dev (mkState (mk 0x48 0x60) (Wire.mk [] [] [])))))
    by (unfold is_byte; simpl; lia).
  split; [exact Hacc|]. split; [exact Hc|].
  exact (proj1 (C6_setThermostat_accepted 32.45 30.14 FT_6
                  (mkState (mk 0x48 0x60) (Wire.mk [] [] [])) Hacc Hc)).
Defined.

(** The sequence of the header's usage example: after init(0,0,0,RES_12),
    setThermostat(32.45, 30.14, FT_6) leaves the resolution bits 6-5 at 0b11
    and sets the fault-tolerance bits 4-3 to 0b11. *)
Example init_then_setThermostat :
  bind (init 0 0 0 RES_12) (fun _ => setThermostat 32.45 30.14 FT_6)
    (mkState (mk 0 0) (Wire.mk [] [] []))
  = Some (tt, mkState (mk 0x48 0x78)
                (Wire.mk
                   [Wire.BeginTransmission 0x48; Wire.Send 0x1;
                    Wire.Send 0x60; Wire.EndTransmission;
                    Wire.BeginTransmission 0x48; Wire.Send 0x3;
                    Wire.Send 0x20; Wire.Send 0x70; Wire.EndTransmission;
                    Wire.BeginTransmission 0x48; Wire.Send 0x2;
                    Wire.Send 0x1E; Wire.Send 0x20; Wire.EndTransmission;
                    Wire.BeginTransmission 0x48; Wire.Send 0x1;
                    Wire.Send 0x78; Wire.EndTransmission] [] []))
  /\ Z.land (Z.shiftr 0x78 5) 0x3 = Resolution_val RES_12
  /\ Z.land (Z.shiftr 0x78 3) 0x3 = FaultTolerance_val FT_6.
Proof.
  split; [vm_compute; reflexivity|]. split; reflexivity.
Qed.

(** ** Further properties of the codec *)

Lemma integer_part_small_check (h : Z) :
  is_byte h ->
  (if h <? 128
   then (integer_part h =? h) && negb (Z.testbit h 7)
   else (1 <=? integer_part h) && Z.testbit h 7)%bool = true.
Proof. intros Hh. by_bytes h Hh. Qed.

Lemma integer_part_small (h : Z) : 0 <= h < 128 -> integer_part h = h.
Proof.
  intros Hh.
  assert (H := integer_part_small_check h ltac:(unfold is_byte; lia)).
  destruct (Z.ltb_spec h 128); [|lia].
  apply andb_true_iff in H. destruct H as [H _]. now apply Z.eqb_eq.
Qed.

Lemma fraction_low_nibble_check (l : Z) :
  is_byte l -> Qeq_bool (fraction (Z.land l 0xF0)) (fraction l) = true.
Proof. intros Hl. by_bytes l Hl. Qed.

Lemma Qfrac_range (q : Q) : (0 <= q - inject_Z (Qfloor q) < 1)%Q.
Proof.
  pose proof (Qfloor_le q) as H1. pose proof (Qlt_floor q) as H2.
  rewrite inject_Z_plus in H2. change (inject_Z 1) with 1%Q in H2.
  split; lra.
Qed.

(** The low byte of [encode], for every value: the whole sixteenths of the
    fractional part of the magnitude, in the high nibble. *)
Lemma encode_low (v : Q) :
  snd (encode v)
  = 16 * Qfloor (16 * (Qabs v - inject_Z (Qfloor (Qabs v)))).
Proof.
  unfold encode, fabs. simpl snd. rewrite Ztrunc_abs.
  apply encode_low_bits_floor. apply Qfrac_range.
Qed.

Lemma sixteenths_range (r : Q) :
  (0 <= r < 1)%Q -> 0 <= Qfloor (16 * r) < 16.
Proof.
  intros [H0 H1].
  pose proof (Qfloor_le (16 * r)) as Hlo.
  pose proof (Qlt_floor (16 * r)) as Hhi.
  assert (Ha : (inject_Z (Qfloor (16 * r)) < inject_Z 16)%Q)
    by (change (inject_Z 16) with 16%Q; lra).
  assert (Hb : (inject_Z 0 < inject_Z (Qfloor (16 * r) + 1))%Q)
    by (change (inject_Z 0) with 0%Q; lra).
  rewrite <- Zlt_Qlt in Ha, Hb. lia.
Qed.

(** Decoding a high byte below 128 with a low byte whose low nibble is
    clear. *)
Lemma decode_small (n k : Z) :
  0 <= n < 128 -> 0 <= k < 16 ->
  (decode n (16 * k) == inject_Z k / 16 + inject_Z n)%Q.
Proof.
  intros Hn Hk. rewrite decode_parts, (integer_part_small n Hn).
  rewrite (fraction_sixteenths (16 * k)) by (unfold is_byte; lia).
  rewrite Z.mul_comm, Z.div_mul by discriminate. reflexivity.
Qed.

(** What [decode] makes of the bytes [encode] produces, for a value whose
    high byte stays below 128. *)
Lemma decode_encode_small (v : Q) :
  0 <= fst (encode v) < 128 ->
  (decode (fst (encode v)) (snd (encode v))
   == inject_Z (Qfloor (16 * (Qabs v - inject_Z (Qfloor (Qabs v))))) / 16
      + inject_Z (fst (encode v)))%Q.
Proof.
  intros Hh. rewrite encode_low.
  apply decode_small; [exact Hh|].
  apply sixteenths_range, Qfrac_range.
Qed.

Lemma encode_high_nonneg (v : Q) :
  (0 <= v <= 125)%Q -> fst (encode v) = Qfloor v /\ 0 <= Qfloor v <= 125.
Proof.
  intros [H0 H1]. unfold encode. simpl fst.
  assert (E : Qle_bool 0 v = true) by now apply Qle_bool_iff.
  rewrite E, Ztrunc_floor by exact H0.
  assert (Hb : 0 <= Qfloor v <= 125)
    by (apply Qfloor_bounds; unfold inject_Z; lra).
  split; [|exact Hb]. unfold to_uint8. apply Z.mod_small. lia.
Qed.

(** X1.  Whatever two bytes are decoded, the result is a whole number of
    sixteenths between 0 and 255.9375, and bits 3-0 of the low byte do not
    influence it. *)
Theorem decode_sixteenths_and_low_nibble (h l : Z) :
  is_byte h -> is_byte l ->
  (exists n : Z, 0 <= n < 4096 /\ (decode h l == inject_Z n / 16)%Q)
  /\ (0 <= decode h l <= 255.9375)%Q
  /\ (decode h l == decode h (Z.land l 0xF0))%Q.
Proof.
  intros Hh Hl.
  pose proof (integer_part_byte h Hh) as Hi.
  pose proof (fraction_range l Hl) as Hf.
  assert (Hq : 0 <= l / 16 < 16).
  { unfold is_byte in Hl. split.
    - apply Z.div_pos; lia.
    - apply Z.div_lt_upper_bound; lia. }
  assert (Hd : (decode h l
                == inject_Z (16 * integer_part h + l / 16) / 16)%Q).
  { rewrite decode_parts, (fraction_sixteenths l Hl).
    rewrite inject_Z_plus, inject_Z_mult. change (inject_Z 16) with 16%Q.
    field. }
  split; [|split].
  - exists (16 * integer_part h + l / 16). split; [unfold is_byte in Hi; lia|].
    exact Hd.
  - split; [now apply decode_nonneg|].
    rewrite decode_parts.
    assert (Hi' : (inject_Z (integer_part h) <= inject_Z 255)%Q)
      by (rewrite <- Zle_Qle; unfold is_byte in Hi; lia).
    change (inject_Z 255) with 255%Q in Hi'.
    rewrite (fraction_sixteenths l Hl) in *.
    assert (Hq' : (inject_Z (l / 16) <= inject_Z 15)%Q)
      by (rewrite <- Zle_Qle; lia).
    change (inject_Z 15) with 15%Q in Hq'.
    assert (H16 : (inject_Z (l / 16) / 16 <= 0.9375)%Q).
    { apply Qle_shift_div_r; [reflexivity|].
      assert (E : (0.9375 * 16 == 15)%Q) by reflexivity.
      rewrite E. exact Hq'. }
    lra.
  - rewrite !decode_parts.
    pose proof (fraction_low_nibble_check l Hl) as Hn.
    apply Qeq_bool_iff in Hn. rewrite Hn. reflexivity.
Qed.

Lemma decode_sixteenths_and_low_nibble_witness :
  is_byte 0xFF /\ is_byte 0x8F /\ (decode 0xFF 0x8F == decode 0xFF 0x80)%Q.
Proof.
  assert (H1 : is_byte 0xFF) by (unfold is_byte; lia).
  assert (H2 : is_byte 0x8F) by (unfold is_byte; lia).
  split; [exact H1|]. split; [exact H2|].
  exact (proj2 (proj2 (decode_sixteenths_and_low_nibble 0xFF 0x8F H1 H2))).
Defined.

(** The decode of [getTemp] agrees with the sign-and-magnitude reading of
    the register exactly when bit 7 of the high byte is clear, that is for
    high bytes below 128. *)
Lemma decode_agrees_iff_high_below_128 (h l : Z) :
  is_byte h -> is_byte l ->
  ((decode h l == decode_spec h l)%Q <-> h < 128).
Proof.
  intros Hh Hl.
  pose proof (integer_part_small_check h Hh) as Hc.
  pose proof (fraction_range l Hl) as [Hf0 Hf1].
  rewrite decode_parts. unfold decode_spec.
  destruct (Z.ltb_spec h 128) as [Hlt | Hge];
    apply andb_true_iff in Hc; destruct Hc as [Hc1 Hc2].
  - apply Z.eqb_eq in Hc1. apply negb_true_iff in Hc2.
    rewrite Hc1, Hc2. split; [intros _; exact Hlt | intros _; ring].
  - apply Z.leb_le in Hc1. rewrite Hc2.
    split; [|lia]. intros Heq. exfalso.
    assert (Hm : 0 <= Z.land h 0x7F) by (apply Z.land_nonneg; right; lia).
    rewrite Zle_Qle in Hc1, Hm.
    change (inject_Z 1) with 1%Q in Hc1. change (inject_Z 0) with 0%Q in Hm.
    lra.
Qed.

Lemma integer_part_cases_check (h : Z) :
  is_byte h ->
  (integer_part h
   =? (if (Z.odd h && (128 <=? h))%bool then h - 128 else h)) = true.
Proof. intros Hh. by_bytes h Hh. Qed.

(** X2.  The value [getTemp] computes from the two bytes, in closed form: the
    high byte plus the high nibble of the low byte in sixteenths, with 128
    taken off the high byte only when it is odd and at least 128. *)
Theorem decode_closed_form (h l : Z) :
  is_byte h -> is_byte l ->
  (decode h l
   == inject_Z (if (Z.odd h && (128 <=? h))%bool then h - 128 else h)%Z
      + inject_Z (l / 16) / 16)%Q.
Proof.
  intros Hh Hl. rewrite decode_parts, (fraction_sixteenths l Hl).
  pose proof (integer_part_cases_check h Hh) as Hi. apply Z.eqb_eq in Hi.
  rewrite Hi. ring.
Qed.

Lemma decode_closed_form_witness :
  is_byte 0x81 /\ is_byte 0x48
  /\ (decode 0x81 0x48 == inject_Z 1 + inject_Z 4 / 16)%Q.
Proof.
  assert (H1 : is_byte 0x81) by (unfold is_byte; lia).
  assert (H2 : is_byte 0x48) by (unfold is_byte; lia).
  split; [exact H1|]. split; [exact H2|].
  exact (decode_closed_form 0x81 0x48 H1 H2).
Defined.

(** X3.  For every value the guard of [setThermostat] admits, the encode
    yields a high byte between 0 and 125 (bit 7 is never set) and a low byte
    16*k with k between 0 and 15 (bits 3-0 are never set). *)
Theorem encode_bytes_in_range (v : Q) :
  (-55 <= v <= 125)%Q ->
  0 <= fst (encode v) <= 125
  /\ Z.testbit (fst (encode v)) 7 = false
  /\ exists k, 0 <= k < 16 /\ snd (encode v) = 16 * k.
Proof.
  intros [Hlo Hhi].
  assert (Hh : 0 <= fst (encode v) <= 125).
  { destruct (Qlt_le_dec v 0) as [Hneg | Hpos].
    - rewrite encode_high_negative by (split; assumption). lia.
    - destruct (encode_high_nonneg v (conj Hpos Hhi)) as [-> Hb]. exact Hb. }
  split; [exact Hh|]. split.
  - rewrite <- (Z.mod_small (fst (encode v)) (2 ^ 7)) by lia.
    apply Z.mod_pow2_bits_high. lia.
  - rewrite encode_low. eexists. split; [|reflexivity].
    apply sixteenths_range, Qfrac_range.
Qed.

Lemma encode_bytes_in_range_witness :
  (-55 <= -25.5 <= 125)%Q
  /\ 0 <= fst (encode (-25.5)) <= 125
  /\ Z.testbit (fst (encode (-25.5))) 7 = false.
Proof.
  assert (H : (-55 <= -25.5 <= 125)%Q) by (split; discriminate).
  split; [exact H|].
  pose proof (encode_bytes_in_range (-25.5) H) as [H1 [H2 _]].
  split; [exact H1 | exact H2].
Defined.

(** X4.  A value between 0 and 125 is written truncated to sixteenths: the
    bytes [encode] produces decode to a value that is at most the value
    encoded and less than one sixteenth below it. *)
Theorem encode_then_decode_truncates (v : Q) :
  (0 <= v <= 125)%Q ->
  let '(h, l) := encode v in
  (decode h l <= v /\ v < decode h l + 0.0625)%Q
  /\ (decode h l == inject_Z (Qfloor (16 * v)) / 16)%Q.
Proof.
  intros [H0 H1].
  destruct (encode_high_nonneg v (conj H0 H1)) as [Hfst Hb].
  pose proof (decode_encode_small v ltac:(rewrite Hfst; lia)) as Hd.
  rewrite Hfst in Hd.
  assert (Habs : (Qabs v == v)%Q) by now apply Qabs_pos.
  assert (Hfl : Qfloor (Qabs v) = Qfloor v) by now rewrite Habs.
  rewrite Hfl in Hd.
  assert (Harg : (16 * (Qabs v - inject_Z (Qfloor v))
                  == 16 * (v - inject_Z (Qfloor v)))%Q) by now rewrite Habs.
  rewrite Harg in Hd.
  set (n := Qfloor v) in *.
  remember (16 * (v - inject_Z n))%Q as r eqn:Er.
  assert (Er' : (r == 16 * (v - inject_Z n))%Q) by (rewrite Er; reflexivity).
  clear Er.
  pose proof (Qfloor_le r) as Hr1. pose proof (Qlt_floor r) as Hr2.
  rewrite inject_Z_plus in Hr2. change (inject_Z 1) with 1%Q in Hr2.
  assert (Hk : Qfloor (16 * v) = Qfloor r + 16 * n).
  { apply Qfloor_unique.
    - rewrite inject_Z_plus, inject_Z_mult. change (inject_Z 16) with 16%Q.
      lra.
    - rewrite !inject_Z_plus, inject_Z_mult. change (inject_Z 16) with 16%Q.
      change (inject_Z 1) with 1%Q. lra. }
  destruct (encode v) as [h l]. simpl fst in *. simpl snd in *. subst h.
  set (k := inject_Z (Qfloor r)) in *.
  assert (Hdiv : (k / 16 == k * 0.0625)%Q) by (field; discriminate).
  rewrite Hdiv in Hd.
  split; [split|].
  - rewrite Hd. lra.
  - rewrite Hd. lra.
  - rewrite Hd, Hk, inject_Z_plus, inject_Z_mult. fold k.
    change (inject_Z 16) with 16%Q. field.
Qed.

Lemma encode_then_decode_truncates_witness :
  (0 <= 32.45 <= 125)%Q
  /\ (decode (fst (encode 32.45)) (snd (encode 32.45)) <= 32.45)%Q.
Proof.
  assert (H : (0 <= 32.45 <= 125)%Q) by (split; discriminate).
  split; [exact H|].
  exact (proj1 (proj1 (encode_then_decode_truncates 32.45 H))).
Defined.

(** X5.  A negative value the guard admits is written without sign and
    without integer part: the high byte is 0, and the bytes decode to a value
    in [0, 1), the truncated fractional part of the magnitude. *)
Theorem encode_negative_loses_magnitude (v : Q) :
  (-55 <= v < 0)%Q ->
  let '(h, l) := encode v in
  h = 0
  /\ (0 <= decode h l < 1)%Q
  /\ (decode h l <= - v - inject_Z (Qfloor (- v)))%Q.
Proof.
  intros Hv.
  pose proof (encode_high_negative v Hv) as Hfst.
  pose proof (decode_encode_small v ltac:(rewrite Hfst; lia)) as Hd.
  rewrite Hfst in Hd.
  destruct Hv as [Hlo Hhi].
  assert (Habs : (Qabs v == - v)%Q) by (apply Qabs_neg; lra).
  assert (Hfl : Qfloor (Qabs v) = Qfloor (- v)) by now rewrite Habs.
  rewrite Hfl in Hd.
  assert (Harg : (16 * (Qabs v - inject_Z (Qfloor (- v)))
                  == 16 * (- v - inject_Z (Qfloor (- v))))%Q)
    by now rewrite Habs.
  rewrite Harg in Hd.
  pose proof (Qfrac_range (- v)) as [Hf0 Hf1].
  set (f := (- v - inject_Z (Qfloor (- v)))%Q) in *.
  pose proof (Qfloor_le (16 * f)) as Hr1.
  pose proof (sixteenths_range f (conj Hf0 Hf1)) as [Hk0 Hk1].
  rewrite Zle_Qle in Hk0. rewrite Zlt_Qlt in Hk1.
  change (inject_Z 0) with 0%Q in *. change (inject_Z 16) with 16%Q in *.
  destruct (encode v) as [h l]. simpl fst in *. simpl snd in *. subst h.
  set (k := inject_Z (Qfloor (16 * f))) in *.
  assert (Hdiv : (k / 16 == k * 0.0625)%Q) by (field; discriminate).
  rewrite Hdiv in Hd.
  split; [reflexivity|]. rewrite Hd. split; [split|]; lra.
Qed.

Lemma encode_negative_loses_magnitude_witness :
  (-55 <= -25.5 < 0)%Q
  /\ fst (encode (-25.5)) = 0
  /\ (0 <= decode (fst (encode (-25.5))) (snd (encode (-25.5))) < 1)%Q.
Proof.
  assert (H : (-55 <= -25.5 < 0)%Q) by (split; [discriminate | reflexivity]).
  split; [exact H|].
  pose proof (encode_negative_loses_magnitude (-25.5) H) as [H1 [H2 _]].
  split; [exact H1 | exact H2].
Defined.

(** ** Further properties of the member functions *)

Lemma after_after (s : state) (d d' : DS7505.t) (es es' : list Wire.event) :
  after (after s d es) d' es' = after s d' (es ++ es').
Proof. unfold after. simpl. now rewrite <- app_assoc. Qed.

Lemma after_nil (s : state) : after s (dev s) [] = s.
Proof.
  destruct s as [d [tr rx sl]]. unfold after. simpl. now rewrite app_nil_r.
Qed.

Lemma sendCommand_run (cmdSet : Z) (s : state) :
  sendCommand cmdSet s
  = Some (tt, after s (dev s)
                [Wire.BeginTransmission (_i2cAddr (dev s));
                 Wire.Send cmdSet; Wire.EndTransmission]).
Proof.
  destruct s as [[a c] [tr rx sl]]. run_driver. reflexivity.
Qed.

Lemma getTemp_run (regPdef : Register) (s : state) (h l : Z) (rest : list Z) :
  Wire.slave (wire s) = h :: l :: rest ->
  getTemp regPdef s
  = Some (decode h l,
          mkState (dev s)
            (Wire.mk
               (Wire.trace (wire s)
                ++ [Wire.BeginTransmission (_i2cAddr (dev s));
                    Wire.Send (Register_val regPdef);
                    Wire.EndTransmission;
                    Wire.RequestFrom (_i2cAddr (dev s)) 2;
                    Wire.Receive h; Wire.Receive l;
                    Wire.EndTransmission])
               [] rest)).
Proof.
  intros Hs. destruct s as [[a c] [tr rx sl]]. simpl in Hs. subst sl.
  cbv beta iota zeta delta
    [getTemp bind ret get_i2cAddr Wire_beginTransmission Wire_send
     Wire_endTransmission Wire_requestFrom Wire_receive wait_available
     on_wire Wire.beginTransmission Wire.send Wire.endTransmission
     Wire.requestFrom Wire.receive Wire.available Wire.log
     dev wire _i2cAddr _configByte Wire.trace Wire.rx Wire.slave
     firstn skipn].
  rewrite <- ?app_assoc. cbn [app]. reflexivity.
Qed.

(** X6.  A temperature read sends one byte, the register pointer, and
    nothing else: its bus calls are the pointer write, the two-byte request,
    two receives and a closing [endTransmission]; the object fields are not
    changed. *)
Theorem getTemp_traffic
    (regPdef : Register) (s : state) (h l : Z) (rest : list Z) :
  Wire.slave (wire s) = h :: l :: rest ->
  let a := _i2cAddr (dev s) in
  exists s',
    getTemp regPdef s = Some (decode h l, s')
    /\ dev s' = dev s
    /\ issued (getTemp regPdef) s
       = Some [Wire.BeginTransmission a; Wire.Send (Register_val regPdef);
               Wire.EndTransmission; Wire.RequestFrom a 2;
               Wire.Receive h; Wire.Receive l; Wire.EndTransmission]
    /\ option_map Wire.transactions (issued (getTemp regPdef) s)
       = Some [(a, [Register_val regPdef])].
Proof.
  intros Hs a. pose proof (getTemp_run regPdef s h l rest Hs) as Hrun.
  eexists. split; [exact Hrun|]. split; [reflexivity|].
  assert (Hi : issued (getTemp regPdef) s
               = Some [Wire.BeginTransmission a;
                       Wire.Send (Register_val regPdef);
                       Wire.EndTransmission; Wire.RequestFrom a 2;
                       Wire.Receive h; Wire.Receive l; Wire.EndTransmission]).
  { unfold issued. rewrite Hrun. cbn [wire Wire.trace].
    now rewrite skipn_length_app. }
  split; [exact Hi|]. rewrite Hi. reflexivity.
Qed.

Lemma getTemp_traffic_witness :
  let s := mkState (mk 0x48 0x60) (Wire.mk [] [] [0x19; 0x80]) in
  Wire.slave (wire s) = [0x19; 0x80]
  /\ option_map Wire.transactions (issued (getTemp P_THYST) s)
     = Some [(0x48, [0x2])].
Proof.
  cbv zeta. split; [reflexivity|].
  destruct (getTemp_traffic P_THYST
              (mkState (mk 0x48 0x60) (Wire.mk [] [] [0x19; 0x80]))
              0x19 0x80 [] eq_refl) as [s' [_ [_ [_ H]]]].
  exact H.
Defined.

(** X7.  [getTemp] returns exactly when the sensor delivers at least two
    bytes to the request; with none or one, a busy-wait never ends. *)
Theorem getTemp_returns_iff_two_bytes (regPdef : Register) (s : state) :
  (exists r, getTemp regPdef s = Some r)
  <-> (2 <= length (Wire.slave (wire s)))%nat.
Proof.
  destruct (Wire.slave (wire s)) as [|h [|l rest]] eqn:Hs.
  - split; [|simpl; lia]. intros [r Hr]. exfalso.
    destruct s as [d [tr rx sl]]. simpl in Hs. subst sl. discriminate Hr.
  - split; [|simpl; lia]. intros [r Hr]. exfalso.
    rewrite (getTemp_blocks regPdef s h Hs) in Hr. discriminate Hr.
  - split; [intros _; simpl; lia|]. intros _.
    eexists. apply (getTemp_run regPdef s h l rest Hs).
Qed.

(** X8.  [sendCommand] transmits any byte it is given, as the only byte of
    one transaction to the device address, and changes no field of the
    object. *)
Theorem sendCommand_traffic (cmdSet : Z) (s : state) :
  exists s',
    sendCommand cmdSet s = Some (tt, s')
    /\ dev s' = dev s
    /\ option_map Wire.transactions (issued (sendCommand cmdSet) s)
       = Some [(_i2cAddr (dev s), [cmdSet])].
Proof.
  pose proof (sendCommand_run cmdSet s) as Hrun.
  eexists. split; [exact Hrun|]. split; [reflexivity|].
  rewrite (issued_after _ _ _ _ _ Hrun). reflexivity.
Qed.

Lemma accepted_dec (tos thyst : Q) : accepted tos thyst \/ ~ accepted tos thyst.
Proof.
  destruct (rejected tos thyst) eqn:E.
  - right. intros H. apply rejected_false_iff in H. congruence.
  - left. now apply rejected_false_iff.
Qed.

Lemma setThermostat_rejected_run
    (tos thyst : Q) (ft : FaultTolerance) (s : state) :
  ~ accepted tos thyst -> setThermostat tos thyst ft s = Some (tt, s).
Proof.
  intros H. unfold setThermostat.
  destruct (rejected tos thyst) eqn:E; [reflexivity|].
  apply rejected_false_iff in E. contradiction.
Qed.

(** On numbers: exactly three transactions when trip >= hysteresis and both
    lie in [-55, 125], and no bus call at all otherwise. *)
Lemma setThermostat_all_or_nothing_numbers
    (tos thyst : Q) (ft : FaultTolerance) (s : state) :
  (accepted tos thyst
   <-> exists txs, option_map Wire.transactions
                     (issued (setThermostat tos thyst ft) s) = Some txs
                   /\ length txs = 3%nat)
  /\ (~ accepted tos thyst
      <-> issued (setThermostat tos thyst ft) s = Some []).
Proof.
  assert (Hacc : accepted tos thyst ->
                 exists txs, option_map Wire.transactions
                               (issued (setThermostat tos thyst ft) s)
                             = Some txs /\ length txs = 3%nat).
  { intros H. pose proof (setThermostat_run tos thyst ft s H) as Hrun.
    cbv zeta in Hrun. rewrite (issued_after _ _ _ _ _ Hrun).
    eexists. split; reflexivity. }
  assert (Hrej : ~ accepted tos thyst ->
                 issued (setThermostat tos thyst ft) s = Some []).
  { intros H. unfold issued.
    rewrite (setThermostat_rejected_run tos thyst ft s H).
    now rewrite skipn_length_self. }
  split; split.
  - exact Hacc.
  - intros [txs [Ht Hl]]. destruct (accepted_dec tos thyst) as [H | H];
      [exact H|]. rewrite (Hrej H) in Ht. simpl in Ht.
    injection Ht as <-. discriminate Hl.
  - exact Hrej.
  - intros Hi H. destruct (Hacc H) as [txs [Ht Hl]].
    rewrite Hi in Ht. simpl in Ht. injection Ht as <-. discriminate Hl.
Qed.

(** X10.  Equal setpoints pass the guard: for every t in [-55, 125] the call
    setThermostat(t, t, ft) writes the same two bytes to the trip and to the
    hysteresis register. *)
Theorem setThermostat_equal_setpoints
    (t : Q) (ft : FaultTolerance) (s : state) :
  (-55 <= t <= 125)%Q ->
  exists c,
    option_map Wire.transactions (issued (setThermostat t t ft) s)
    = Some [(_i2cAddr (dev s),
             [Register_val P_TOS; fst (encode t); snd (encode t)]);
            (_i2cAddr (dev s),
             [Register_val P_THYST; fst (encode t); snd (encode t)]);
            (_i2cAddr (dev s), [Register_val P_CONF; c])].
Proof.
  intros [Hlo Hhi].
  assert (Hacc : accepted t t) by (unfold accepted; repeat split; lra).
  pose proof (setThermostat_run t t ft s Hacc) as Hrun. cbv zeta in Hrun.
  rewrite (issued_after _ _ _ _ _ Hrun). eexists. reflexivity.
Qed.

Lemma setThermostat_equal_setpoints_witness :
  (-55 <= 125 <= 125)%Q
  /\ exists c,
       option_map Wire.transactions
         (issued (setThermostat 125 125 FT_2)
            (mkState (mk 0x48 0x60) (Wire.mk [] [] [])))
       = Some [(0x48, [0x3; fst (encode 125); snd (encode 125)]);
               (0x48, [0x2; fst (encode 125); snd (encode 125)]);
               (0x48, [0x1; c])].
Proof.
  assert (H : (-55 <= 125 <= 125)%Q) by (split; discriminate).
  split; [exact H|].
  exact (setThermostat_equal_setpoints 125 FT_2
           (mkState (mk 0x48 0x60) (Wire.mk [] [] [])) H).
Defined.

Lemma update_ft_twice_check (f1 f2 : FaultTolerance) (c : Z) :
  is_byte c -> (update_ft (update_ft c f1) f2 =? update_ft c f2) = true.
Proof. intros Hc. destruct f1, f2; by_bytes c Hc. Qed.

(** The object after an accepted call, for a cached byte that is a byte. *)
Lemma setThermostat_dev
    (tos thyst : Q) (ft : FaultTolerance) (s : state) :
  accepted tos thyst -> is_byte (_configByte (dev s)) ->
  exists s',
    setThermostat tos thyst ft s = Some (tt, s')
    /\ dev s' = mk (_i2cAddr (dev s)) (update_ft (_configByte (dev s)) ft).
Proof.
  intros Hacc Hc. pose proof (setThermostat_run tos thyst ft s Hacc) as Hrun.
  cbv zeta in Hrun. eexists. split; [exact Hrun|].
  destruct (update_ft_facts ft _ Hc) as [Hu8 _].
  unfold after. cbn [dev]. fold (update_ft (_configByte (dev s)) ft).
  now rewrite Hu8.
Qed.

(** X11.  Of two accepted calls in a row, the later fault tolerance wins: the
    object is left as by the second call alone, and the resolution, polarity,
    mode and shutdown bits of the cached byte stay as they were. *)
Theorem setThermostat_last_fault_tolerance_wins
    (tos1 thyst1 tos2 thyst2 : Q) (ft1 ft2 : FaultTolerance) (s : state) :
  accepted tos1 thyst1 -> accepted tos2 thyst2 ->
  is_byte (_configByte (dev s)) ->
  exists s12 s2,
    bind (setThermostat tos1 thyst1 ft1)
         (fun _ => setThermostat tos2 thyst2 ft2) s = Some (tt, s12)
    /\ setThermostat tos2 thyst2 ft2 s = Some (tt, s2)
    /\ dev s12 = dev s2
    /\ Z.land (_configByte (dev s12)) 0xE7
       = Z.land (_configByte (dev s)) 0xE7
    /\ Z.land (Z.shiftr (_configByte (dev s12)) 3) 0x3
       = FaultTolerance_val ft2.
Proof.
  intros H1 H2 Hc.
  destruct (setThermostat_dev tos1 thyst1 ft1 s H1 Hc) as [s1 [Hr1 Hd1]].
  destruct (update_ft_facts ft1 _ Hc) as (_ & _ & _ & Hb1).
  assert (Hc1 : is_byte (_configByte (dev s1))) by (rewrite Hd1; exact Hb1).
  destruct (setThermostat_dev tos2 thyst2 ft2 s1 H2 Hc1) as [s12 [Hr12 Hd12]].
  destruct (setThermostat_dev tos2 thyst2 ft2 s H2 Hc) as [s2 [Hr2 Hd2]].
  exists s12, s2. unfold bind. rewrite Hr1.
  split; [exact Hr12|]. split; [exact Hr2|].
  rewrite Hd12, Hd2, Hd1. cbn [_i2cAddr _configByte].
  pose proof (update_ft_twice_check ft1 ft2 _ Hc) as Ht.
  apply Z.eqb_eq in Ht. rewrite Ht.
  destruct (update_ft_facts ft2 _ Hc) as (_ & Hframe & Hft & _).
  split; [reflexivity|]. split; assumption.
Qed.

Lemma setThermostat_last_fault_tolerance_wins_witness :
  let s := mkState (mk 0x48 0x60) (Wire.mk [] [] []) in
  accepted 32.45 30.14 /\ accepted 25 20
  /\ is_byte (_configByte (dev s))
  /\ exists s12 s2,
       bind (setThermostat 32.45 30.14 FT_6)
            (fun _ => setThermostat 25 20 FT_2) s = Some (tt, s12)
       /\ setThermostat 25 20 FT_2 s = Some (tt, s2)
       /\ dev s12 = dev s2.
Proof.
  cbv zeta.
  assert (H1 : accepted 32.45 30.14)
    by (unfold accepted; repeat split; discriminate).
  assert (H2 : accepted 25 20)
    by (unfold accepted; repeat split; discriminate).
  assert (Hc : is_byte
                 (_configByte (dev (mkState (mk 0x48 0x60) (Wire.mk [] [] [])))))
    by (unfold is_byte; simpl; lia).
  split; [exact H1|]. split; [exact H2|]. split; [exact Hc|].
  destruct (setThermostat_last_fault_tolerance_wins
              32.45 30.14 25 20 FT_6 FT_2
              (mkState (mk 0x48 0x60) (Wire.mk [] [] [])) H1 H2 Hc)
    as [s12 [s2 [Ha [Hb [Hd _]]]]].
  exists s12, s2. split; [exact Ha|]. split; [exact Hb | exact Hd].
Defined.

(** X12.  The two-argument wrapper setThermostatC(tos, thyst) passes FT_1: an
    accepted call clears bits 4-3 of the cached configuration byte, whatever
    fault tolerance an earlier call had stored, and keeps the other bits. *)
Theorem setThermostatC_2_resets_fault_tolerance
    (tos thyst : Q) (s : state) :
  accepted tos thyst -> is_byte (_configByte (dev s)) ->
  exists s',
    setThermostatC_2 tos thyst s = Some (tt, s')
    /\ _i2cAddr (dev s') = _i2cAddr (dev s)
    /\ _configByte (dev s') = Z.land (_configByte (dev s)) 0xE7
    /\ Z.land (_configByte (dev s')) 0x18 = 0.
Proof.
  intros Hacc Hc.
  destruct (setThermostat_dev tos thyst FT_1 s Hacc Hc) as [s' [Hr Hd]].
  exists s'. split; [exact Hr|]. rewrite Hd. cbn [_i2cAddr _configByte].
  split; [reflexivity|].
  assert (Hu : update_ft (_configByte (dev s)) FT_1
               = Z.land (_configByte (dev s)) 0xE7)
    by (unfold update_ft; simpl; apply Z.lor_0_r).
  rewrite Hu. split; [reflexivity|].
  rewrite <- Z.land_assoc. simpl. apply Z.land_0_r.
Qed.

Lemma setThermostatC_2_resets_fault_tolerance_witness :
  let s := mkState (mk 0x48 0x78) (Wire.mk [] [] []) in
  accepted 32.45 30.14 /\ is_byte (_configByte (dev s))
  /\ exists s',
       setThermostatC_2 32.45 30.14 s = Some (tt, s')
       /\ _i2cAddr (dev s') = 0x48
       /\ _configByte (dev s') = 0x60
       /\ Z.land (_configByte (dev s')) 0x18 = 0.
Proof.
  cbv zeta.
  assert (H1 : accepted 32.45 30.14)
    by (unfold accepted; repeat split; discriminate).
  assert (Hc : is_byte
                 (_configByte (dev (mkState (mk 0x48 0x78) (Wire.mk [] [] [])))))
    by (unfold is_byte; simpl; lia).
  split; [exact H1|]. split; [exact Hc|].
  exact (setThermostatC_2_resets_fault_tolerance 32.45 30.14
           (mkState (mk 0x48 0x78) (Wire.mk [] [] [])) H1 Hc).
Defined.

Lemma init_config_check (res : Resolution) (ft : FaultTolerance) :
  let c := to_uint8 (Z.shiftl (Resolution_val res) 5) in
  c = Z.shiftl (Resolution_val res) 5
  /\ is_byte c
  /\ update_ft c ft
     = Z.lor (Z.shiftl (Resolution_val res) 5)
             (Z.shiftl (FaultTolerance_val ft) 3)
  /\ Z.land (Z.shiftr (update_ft c ft) 5) 0x3 = Resolution_val res
  /\ Z.land (Z.shiftr (update_ft c ft) 3) 0x3 = FaultTolerance_val ft
  /\ Z.land (update_ft c ft) 0x87 = 0.
Proof.
  destruct res, ft; cbv zeta; unfold is_byte; repeat split;
    try reflexivity; vm_compute; congruence.
Qed.

(** X13.  [init] discards whatever address and configuration the object held
    and writes the configuration register at the newly computed address; an
    accepted [setThermostat] after it leaves the cached byte with the
    resolution in bits 6-5, the fault tolerance in bits 4-3 and every other
    bit zero, and all four transactions go to the new address. *)
Theorem init_then_setThermostat_config
    (a2 a1 a0 : Z) (res : Resolution) (tos thyst : Q) (ft : FaultTolerance)
    (s : state) :
  accepted tos thyst ->
  let a := init_addr a2 a1 a0 in
  let c0 := Z.shiftl (Resolution_val res) 5 in
  let c := Z.lor c0 (Z.shiftl (FaultTolerance_val ft) 3) in
  exists s',
    bind (init a2 a1 a0 res) (fun _ => setThermostat tos thyst ft) s
    = Some (tt, s')
    /\ dev s' = mk a c
    /\ Z.land (Z.shiftr c 5) 0x3 = Resolution_val res
    /\ Z.land (Z.shiftr c 3) 0x3 = FaultTolerance_val ft
    /\ Z.land c 0x87 = 0
    /\ option_map Wire.transactions
         (issued (bind (init a2 a1 a0 res)
                    (fun _ => setThermostat tos thyst ft)) s)
       = Some [(a, [Register_val P_CONF; c0]);
               (a, [Register_val P_TOS; fst (encode tos); snd (encode tos)]);
               (a, [Register_val P_THYST; fst (encode thyst);
                    snd (encode thyst)]);
               (a, [Register_val P_CONF; c])].
Proof.
  intros Hacc a c0 c.
  destruct (init_config_check res ft) as (Hc0 & Hb & Hu & Hres & Hft & Hz).
  cbv zeta in Hc0, Hb, Hu, Hres, Hft, Hz.
  assert (Ha : to_uint8 (init_addr a2 a1 a0) = a).
  { unfold to_uint8. pose proof (init_addr_range a2 a1 a0).
    apply Z.mod_small. lia. }
  pose proof (init_run a2 a1 a0 res s) as Hi. cbv zeta in Hi.
  cbn [_i2cAddr _configByte] in Hi. rewrite Ha, Hc0 in Hi. fold c0 in Hi.
  set (s1 := after s (mk a c0)
               [Wire.BeginTransmission a; Wire.Send (Register_val P_CONF);
                Wire.Send c0; Wire.EndTransmission]) in *.
  pose proof (setThermostat_run tos thyst ft s1 Hacc) as Hr. cbv zeta in Hr.
  assert (Hd1 : dev s1 = mk a c0) by reflexivity.
  rewrite Hd1 in Hr. cbn [_i2cAddr _configByte] in Hr.
  assert (Hcfg : to_uint8 (Z.lor (Z.land c0 0xE7)
                             (Z.shiftl (FaultTolerance_val ft) 3)) = c).
  { fold (update_ft c0 ft). unfold c0 at 1. rewrite <- Hc0.
    destruct (update_ft_facts ft _ Hb) as [Hu8 _]. rewrite Hu8. exact Hu. }
  rewrite Hcfg in Hr. unfold s1 in Hr at 2. rewrite after_after in Hr.
  assert (Hrun : bind (init a2 a1 a0 res)
                   (fun _ => setThermostat tos thyst ft) s
                 = Some (tt, after s (mk a c)
                     ([Wire.BeginTransmission a;
                       Wire.Send (Register_val P_CONF);
                       Wire.Send c0; Wire.EndTransmission]
                      ++ [Wire.BeginTransmission a;
                          Wire.Send (Register_val P_TOS);
                          Wire.Send (fst (encode tos));
                          Wire.Send (snd (encode tos));
                          Wire.EndTransmission;
                          Wire.BeginTransmission a;
                          Wire.Send (Register_val P_THYST);
                          Wire.Send (fst (encode thyst));
                          Wire.Send (snd (encode thyst));
                          Wire.EndTransmission;
                          Wire.BeginTransmission a;
                          Wire.Send (Register_val P_CONF);
                          Wire.Send c; Wire.EndTransmission])))
    by (unfold bind; rewrite Hi; exact Hr).
  pose proof (issued_after _ _ _ _ _ Hrun) as Hiss.
  eexists. split; [exact Hrun|]. split; [reflexivity|].
  rewrite Hiss. clear Hiss Hrun Hr Hi Hcfg.
  unfold c, c0. rewrite <- Hu.
  split; [exact Hres|]. split; [exact Hft|]. split; [exact Hz|].
  reflexivity.
Qed.

Lemma init_then_setThermostat_config_witness :
  accepted 32.45 30.14
  /\ exists s',
       bind (init 1 0 1 RES_10) (fun _ => setThermostat 32.45 30.14 FT_4)
         (mkState (mk 0x00 0xFF) (Wire.mk [] [] [])) = Some (tt, s')
       /\ dev s' = mk 0x4D 0x30.
Proof.
  assert (H1 : accepted 32.45 30.14)
    by (unfold accepted; repeat split; discriminate).
  split; [exact H1|].
  destruct (init_then_setThermostat_config 1 0 1 RES_10 32.45 30.14 FT_4
              (mkState (mk 0x00 0xFF) (Wire.mk [] [] [])) H1)
    as [s' [Hr [Hd _]]].
  exists s'. split; [exact Hr | exact Hd].
Defined.

(** ** What no sequence of calls changes *)

Lemma keeps_identity_refl (s : state) :
  is_byte (_configByte (dev s)) -> keeps_identity s s.
Proof.
  intros Hc. unfold keeps_identity. repeat split; try assumption; try apply Hc.
  exists []. split; [now rewrite app_nil_r | reflexivity].
Qed.

Lemma keeps_identity_trans (s1 s2 s3 : state) :
  keeps_identity s1 s2 -> keeps_identity s2 s3 -> keeps_identity s1 s3.
Proof.
  intros (Ha & Hc & Hb & es & Ht & Hf) (Ha' & Hc' & Hb' & es' & Ht' & Hf').
  unfold keeps_identity. split; [congruence|]. split; [congruence|].
  split; [exact Hb'|]. exists (es ++ es'). split.
  - rewrite Ht', Ht. now rewrite app_assoc.
  - rewrite forallb_app, Hf. rewrite Ha in Hf'. now rewrite Hf'.
Qed.

Lemma keeps_identity_after (s : state) (c : Z) (es : list Wire.event) :
  Z.land c 0xE7 = Z.land (_configByte (dev s)) 0xE7 ->
  is_byte c ->
  forallb (addressed_to (_i2cAddr (dev s))) es = true ->
  keeps_identity s (after s (mk (_i2cAddr (dev s)) c) es).
Proof.
  intros Hc Hb Hf. unfold keeps_identity, after. cbn.
  split; [reflexivity|]. split; [exact Hc|]. split; [exact Hb|].
  exists es. split; [reflexivity | exact Hf].
Qed.

Lemma keeps_identity_after_same (s : state) (es : list Wire.event) :
  is_byte (_configByte (dev s)) ->
  forallb (addressed_to (_i2cAddr (dev s))) es = true ->
  keeps_identity s (after s (dev s) es).
Proof.
  intros Hb Hf. unfold keeps_identity, after. cbn.
  split; [reflexivity|]. split; [reflexivity|]. split; [exact Hb|].
  exists es. split; [reflexivity | exact Hf].
Qed.

Lemma do_call_keeps_identity (c : call) (s s' : state) :
  is_byte (_configByte (dev s)) ->
  do_call c s = Some (tt, s') -> keeps_identity s s'.
Proof.
  intros Hc Hrun. destruct c as [b | b | r | tos thyst ft]; simpl in Hrun.
  - rewrite setConfigRegister_run in Hrun. injection Hrun as <-.
    apply keeps_identity_after_same; [exact Hc|].
    cbn. now rewrite Z.eqb_refl.
  - rewrite sendCommand_run in Hrun. injection Hrun as <-.
    apply keeps_identity_after_same; [exact Hc|].
    cbn. now rewrite Z.eqb_refl.
  - unfold bind in Hrun.
    destruct (Wire.slave (wire s)) as [|h [|l rest]] eqn:Hs.
    + exfalso. destruct s as [d [tr rx sl]]. simpl in Hs. subst sl.
      discriminate Hrun.
    + rewrite (getTemp_blocks r s h Hs) in Hrun. discriminate Hrun.
    + rewrite (getTemp_run r s h l rest Hs) in Hrun.
      unfold ret in Hrun. injection Hrun as <-.
      unfold keeps_identity. cbn.
      split; [reflexivity|]. split; [reflexivity|]. split; [exact Hc|].
      eexists. split; [reflexivity|]. cbn. now rewrite Z.eqb_refl.
  - destruct (accepted_dec tos thyst) as [Hacc | Hrej].
    + rewrite (setThermostat_run tos thyst ft s Hacc) in Hrun.
      cbv zeta in Hrun. fold (update_ft (_configByte (dev s)) ft) in Hrun.
      destruct (update_ft_facts ft _ Hc) as (Hu8 & Hframe & _ & Hb).
      rewrite Hu8 in Hrun. injection Hrun as <-.
      apply keeps_identity_after; [exact Hframe | exact Hb |].
      cbn. now rewrite Z.eqb_refl.
    + rewrite (setThermostat_rejected_run tos thyst ft s Hrej) in Hrun.
      injection Hrun as <-. now apply keeps_identity_refl.
Qed.

(** X14.  Between initialisations the device identity is fixed: whatever
    sequence of setConfigRegister, sendCommand, getTemp and setThermostat
    calls a client makes, when it returns the bus address is the one it
    started with, every bit of the cached configuration byte other than the
    fault-tolerance bits 4-3 is unchanged, and every transmission and request
    made on the bus named that address. *)
Theorem calls_keep_address_and_resolution (cs : list call) (s s' : state) :
  is_byte (_configByte (dev s)) ->
  do_calls cs s = Some (tt, s') ->
  _i2cAddr (dev s') = _i2cAddr (dev s)
  /\ Z.land (_configByte (dev s')) 0xE7 = Z.land (_configByte (dev s)) 0xE7
  /\ is_byte (_configByte (dev s'))
  /\ exists es,
       Wire.trace (wire s') = Wire.trace (wire s) ++ es
       /\ forallb (addressed_to (_i2cAddr (dev s))) es = true.
Proof.
  revert s. induction cs as [|c cs IH]; intros s Hc Hrun.
  - simpl in Hrun. unfold ret in Hrun. injection Hrun as <-.
    now apply keeps_identity_refl.
  - simpl in Hrun. unfold bind in Hrun.
    destruct (do_call c s) as [[[] s1]|] eqn:Hstep; [|discriminate Hrun].
    pose proof (do_call_keeps_identity c s s1 Hc Hstep) as H1.
    assert (Hc1 : is_byte (_configByte (dev s1))) by apply H1.
    apply (keeps_identity_trans s s1 s'); [exact H1|].
    exact (IH s1 Hc1 Hrun).
Qed.

Lemma calls_keep_address_and_resolution_witness :
  let s := mkState (mk 0x4B 0x60) (Wire.mk [] [] [0x19; 0x80]) in
  let cs := [Call_setThermostat 32.45 30.14 FT_6;
             Call_sendCommand 0x48;
             Call_getTemp P_TEMP;
             Call_setConfigRegister 0x00;
             Call_setThermostat 10 20 FT_1] in
  let s' :=
    mkState (mk 0x4B 0x78)
      (Wire.mk
         [Wire.BeginTransmission 0x4B; Wire.Send 0x3; Wire.Send 0x20;
          Wire.Send 0x70; Wire.EndTransmission;
          Wire.BeginTransmission 0x4B; Wire.Send 0x2; Wire.Send 0x1E;
          Wire.Send 0x20; Wire.EndTransmission;
          Wire.BeginTransmission 0x4B; Wire.Send 0x1; Wire.Send 0x78;
          Wire.EndTransmission;
          Wire.BeginTransmission 0x4B; Wire.Send 0x48; Wire.EndTransmission;
          Wire.BeginTransmission 0x4B; Wire.Send 0x0; Wire.EndTransmission;
          Wire.RequestFrom 0x4B 2; Wire.Receive 0x19; Wire.Receive 0x80;
          Wire.EndTransmission;
          Wire.BeginTransmission 0x4B; Wire.Send 0x1; Wire.Send 0x78;
          Wire.EndTransmission] [] []) in
  is_byte (_configByte (dev s))
  /\ do_calls cs s = Some (tt, s')
  /\ _i2cAddr (dev s') = _i2cAddr (dev s)
  /\ Z.land (_configByte (dev s')) 0xE7 = Z.land (_configByte (dev s)) 0xE7.
Proof.
  intros s cs s'.
  assert (Hc : is_byte (_configByte (dev s))) by (unfold is_byte; simpl; lia).
  assert (Hrun : do_calls cs s = Some (tt, s')) by (vm_compute; reflexivity).
  split; [exact Hc|]. split; [exact Hrun|].
  pose proof (calls_keep_address_and_resolution cs s s' Hc Hrun)
    as [Ha [Hb _]].
  split; [exact Ha | exact Hb].
Defined.

(** ** setThermostat on values that are not numbers *)

Lemma encode_low_bits_fp_Finite (r : Q) :
  encode_low_bits_fp (Finite r) = encode_low_bits r.
Proof.
  unfold encode_low_bits_fp, encode_low_bits. cbn [f_ge f_sub].
  destruct (Qle_bool 0.5 r); cbv beta iota zeta; cbn [f_ge f_sub];
    (destruct (Qle_bool 0.25 _); cbv beta iota zeta; cbn [f_ge f_sub]);
    (destruct (Qle_bool 0.125 _); cbv beta iota zeta; cbn [f_ge f_sub]);
    destruct (Qle_bool 0.0625 _); reflexivity.
Qed.

Lemma encode_fp_Finite (undef : cfloat -> Z) (q : Q) :
  encode_fp undef (Finite q) = encode q.
Proof.
  unfold encode_fp, encode, f_abs, abs, fabs, f_of_int. cbn [f_ge f_lt f_fabs].
  destruct (Qltb 0 q); cbn [f_neg f_to_int f_sub];
    now rewrite encode_low_bits_fp_Finite.
Qed.

(** On numbers [setThermostat_fp] is [setThermostat]. *)
Lemma setThermostat_fp_Finite
    (undef : cfloat -> Z) (tos thyst : Q) (ft : FaultTolerance) :
  setThermostat_fp undef (Finite tos) (Finite thyst) ft
  = setThermostat tos thyst ft.
Proof.
  unfold setThermostat_fp, setThermostat.
  change (rejected_fp (Finite tos) (Finite thyst)) with (rejected tos thyst).
  now rewrite !encode_fp_Finite.
Qed.

Lemma setThermostat_fp_run
    (undef : cfloat -> Z) (tos thyst : cfloat) (ft : FaultTolerance)
    (s : state) :
  rejected_fp tos thyst = false ->
  setThermostat_fp undef tos thyst ft s
  = let a := _i2cAddr (dev s) in
    let c := to_uint8 (Z.lor (Z.land (_configByte (dev s)) 0xE7)
                             (Z.shiftl (FaultTolerance_val ft) 3)) in
    Some (tt, after s (mk a c)
                [Wire.BeginTransmission a; Wire.Send (Register_val P_TOS);
                 Wire.Send (fst (encode_fp undef tos));
                 Wire.Send (snd (encode_fp undef tos));
                 Wire.EndTransmission;
                 Wire.BeginTransmission a; Wire.Send (Register_val P_THYST);
                 Wire.Send (fst (encode_fp undef thyst));
                 Wire.Send (snd (encode_fp undef thyst));
                 Wire.EndTransmission;
                 Wire.BeginTransmission a; Wire.Send (Register_val P_CONF);
                 Wire.Send c; Wire.EndTransmission]).
Proof.
  intros Hacc. unfold setThermostat_fp. rewrite Hacc.
  destruct (encode_fp undef tos) as [tos_h tos_l],
           (encode_fp undef thyst) as [thyst_h thyst_l].
  destruct s as [[a c] [tr rx sl]]. run_driver. reflexivity.
Qed.

Lemma setThermostat_fp_rejected_run
    (undef : cfloat -> Z) (tos thyst : cfloat) (ft : FaultTolerance)
    (s : state) :
  rejected_fp tos thyst = true ->
  setThermostat_fp undef tos thyst ft s = Some (tt, s).
Proof. intros H. unfold setThermostat_fp. now rewrite H. Qed.

(** The guard lets a pair through exactly when each setpoint is NaN or a
    number of [-55, 125] and, if both are numbers, trip >= hysteresis. *)
Lemma rejected_fp_false_iff (tos thyst : cfloat) :
  rejected_fp tos thyst = false <-> passes_guard tos thyst.
Proof.
  unfold rejected_fp, passes_guard.
  destruct tos as [a | [|] | ], thyst as [b | [|] | ];
    cbn [f_lt in_range_or_NaN negb andb];
    rewrite ?orb_true_r, ?orb_false_r, ?orb_true_l, ?orb_false_l;
    rewrite ?orb_false_iff, ?Qltb_ge;
    try (split; [discriminate | tauto]);
    try (split; [intros; exact (conj I (conj I I)) | reflexivity]);
    tauto.
Qed.

Lemma encode_fp_NaN (undef : cfloat -> Z) :
  encode_fp undef NaN = (Z.land 0x80 (to_uint8 (undef NaN)), 0).
Proof. reflexivity. Qed.

(** C4.  The guard of line 86 does not make every call outside the
    precondition a no-op: NaN is neither >= -55 nor <= 125, yet every
    comparison with NaN is false, so setThermostatC(NaN, 20.0, FT_1) is not
    rejected.
    It writes the trip register (high byte 0x80 & the converted NaN, low
    byte 0), the hysteresis register and the configuration register, and
    replaces the fault-tolerance bits of the cached byte. *)
Theorem C4_setThermostat_NaN_passes_guard
    (undef : cfloat -> Z) (s : state) :
  let a := _i2cAddr (dev s) in
  let c := to_uint8 (Z.lor (Z.land (_configByte (dev s)) 0xE7)
                           (Z.shiftl (FaultTolerance_val FT_1) 3)) in
  f_ge NaN (Finite (-55)) = false
  /\ f_ge (Finite 125) NaN = false
  /\ rejected_fp NaN (Finite 20.0) = false
  /\ setThermostatC_fp undef NaN (Finite 20.0) FT_1 s
     = Some (tt, after s (mk a c)
                   [Wire.BeginTransmission a; Wire.Send 0x3;
                    Wire.Send (Z.land 0x80 (to_uint8 (undef NaN)));
                    Wire.Send 0x00; Wire.EndTransmission;
                    Wire.BeginTransmission a; Wire.Send 0x2;
                    Wire.Send 0x14; Wire.Send 0x00; Wire.EndTransmission;
                    Wire.BeginTransmission a; Wire.Send 0x1;
                    Wire.Send c; Wire.EndTransmission])
  /\ (exists txs,
        option_map Wire.transactions
          (issued (setThermostatC_fp undef NaN (Finite 20.0) FT_1) s)
        = Some txs /\ length txs = 3%nat)
  /\ issued (setThermostatC_fp undef NaN (Finite 20.0) FT_1) s <> Some [].
Proof.
  intros a c.
  assert (Hrun := setThermostat_fp_run undef NaN (Finite 20.0) FT_1 s eq_refl).
  cbv zeta in Hrun. rewrite encode_fp_NaN, encode_fp_Finite in Hrun.
  change (encode 20.0) with (0x14, 0x00) in Hrun.
  cbn [fst snd Register_val] in Hrun. fold a c in Hrun.
  unfold setThermostatC_fp.
  pose proof (issued_after _ _ _ _ _ Hrun) as Hiss.
  split; [reflexivity|]. split; [reflexivity|]. split; [reflexivity|].
  split; [exact Hrun|]. rewrite Hiss. split.
  - eexists. split; reflexivity.
  - discriminate.
Qed.

(** X9.  [setThermostat] writes all three registers or none, whatever
    floating-point values it is given: the call issues exactly three
    transactions when each setpoint is NaN or a number of [-55, 125] and,
    if both are numbers, trip >= hysteresis; otherwise it makes no bus call
    at all. *)
Theorem setThermostat_all_or_nothing
    (undef : cfloat -> Z) (tos thyst : cfloat) (ft : FaultTolerance)
    (s : state) :
  (passes_guard tos thyst
   <-> exists txs, option_map Wire.transactions
                     (issued (setThermostat_fp undef tos thyst ft) s)
                   = Some txs
                   /\ length txs = 3%nat)
  /\ (~ passes_guard tos thyst
      <-> issued (setThermostat_fp undef tos thyst ft) s = Some []).
Proof.
  assert (Hacc : passes_guard tos thyst ->
                 exists txs, option_map Wire.transactions
                               (issued (setThermostat_fp undef tos thyst ft) s)
                             = Some txs /\ length txs = 3%nat).
  { intros H. apply rejected_fp_false_iff in H.
    pose proof (setThermostat_fp_run undef tos thyst ft s H) as Hrun.
    cbv zeta in Hrun. rewrite (issued_after _ _ _ _ _ Hrun).
    eexists. split; reflexivity. }
  assert (Hrej : ~ passes_guard tos thyst ->
                 issued (setThermostat_fp undef tos thyst ft) s = Some []).
  { intros H. unfold issued.
    rewrite setThermostat_fp_rejected_run.
    - now rewrite skipn_length_self.
    - destruct (rejected_fp tos thyst) eqn:E; [reflexivity|].
      apply rejected_fp_false_iff in E. contradiction. }
  assert (Hdec : passes_guard tos thyst \/ ~ passes_guard tos thyst).
  { destruct (rejected_fp tos thyst) eqn:E.
    - right. intros H. apply rejected_fp_false_iff in H. congruence.
    - left. now apply rejected_fp_false_iff. }
  split; split.
  - exact Hacc.
  - intros [txs [Ht Hl]]. destruct Hdec as [H | H]; [exact H|].
    rewrite (Hrej H) in Ht. simpl in Ht. injection Ht as <-. discriminate Hl.
  - exact Hrej.
  - intros Hi H. destruct (Hacc H) as [txs [Ht Hl]].
    rewrite Hi in Ht. simpl in Ht. injection Ht as <-. discriminate Hl.
Qed.

(** ** Decode, re-encode through setThermostat, decode *)





